(** * mcp-client-cli: a shallow embedding of [src/mcp_client_cli/cli.py]

    The development follows the layout of the Python module:

    - the on-disk tool cache ([get_cached_tools], [save_tools_cache]);
    - the tool adapter ([create_langchain_tool], [McpTool._arun]);
    - tool discovery ([convert_mcp_to_langchain_tools]);
    - the conversation store ([ConversationManager]);
    - the rendering loop of [run].

    Python values are modelled by inductive types, exceptions by the
    [result] type, and the outside world (clock, file system, tool-server
    processes) by an explicit [world] threaded through a small
    state-and-exception monad. *)

From Stdlib Require Import ZArith Ascii String List Lia Bool.
From stdpp Require Import base option gmap strings list.

Open Scope string_scope.
Open Scope Z_scope.

Set Warnings "-register-all".

(* ================================================================== *)
(** * Python results and exceptions *)
(* ================================================================== *)

(** One block of an MCP [CallToolResult.content] list. *)
Inductive content_block :=
| TextContent (text : string)
| ImageContent (data mime : string)
| EmbeddedResource (uri : string).

(** The exceptions the modelled code can propagate.  [ToolException]
    is the only one the module raises itself (line 109); the others come
    from the libraries it calls. *)
Inductive exn :=
| OSError
| FileNotFoundError
| JSONDecodeError
| KeyError (key : string)
| TypeError
| ValueError
| ValidationError
| IndexError
| OperationalError
| SessionError (msg : string)
| ToolException (payload : list content_block).

Inductive result (A : Type) :=
| Ok (a : A)
| Raise (e : exn).
Arguments Ok {A} a.
Arguments Raise {A} e.

(** [[f(x) for x in xs]]: evaluated left to right, the first exception
    aborts the comprehension. *)
Fixpoint comprehension {A B} (f : A → result B) (xs : list A) : result (list B) :=
  match xs with
  | [] => Ok []
  | x :: rest =>
      match f x with
      | Raise e => Raise e
      | Ok y =>
          match comprehension f rest with
          | Raise e => Raise e
          | Ok ys => Ok (y :: ys)
          end
      end
  end.

(* ================================================================== *)
(** * Strings *)
(* ================================================================== *)

(** [s.replace(old, new)] for one-character [old] and [new]. *)
Fixpoint str_replace (old new : ascii) (s : string) : string :=
  match s with
  | EmptyString => EmptyString
  | String c rest =>
      String (if Ascii.eqb c old then new else c) (str_replace old new rest)
  end.

Definition digit_char (d : Z) : ascii :=
  ascii_of_N (Z.to_N (48 + d)).

Definition digit_of_ascii (c : ascii) : option Z :=
  let n := Z.of_N (N_of_ascii c) in
  if (48 <=? n) && (n <=? 57) then Some (n - 48) else None.

(** ["%0kd" % n] for [0 <= n < 10^k]: the [k] low decimal digits of
    [n], most significant first. *)
Fixpoint pad_digits (k : nat) (n : Z) : string :=
  match k with
  | O => EmptyString
  | S k' => String (digit_char ((n / 10 ^ Z.of_nat k') mod 10)) (pad_digits k' n)
  end.

(** Reads exactly [k] decimal digits from the front of [s]. *)
Fixpoint read_digits (k : nat) (acc : Z) (s : string) : option (Z * string) :=
  match k with
  | O => Some (acc, s)
  | S k' =>
      match s with
      | EmptyString => None
      | String c rest =>
          match digit_of_ascii c with
          | None => None
          | Some d => read_digits k' (acc * 10 + d) rest
          end
      end
  end.

Definition expect (c : ascii) (s : string) : option string :=
  match s with
  | String c' rest => if Ascii.eqb c c' then Some rest else None
  | EmptyString => None
  end.

(* ================================================================== *)
(** * JSON documents *)
(* ================================================================== *)

(** The Python object [json.loads] returns.  Numbers are never
    inspected by the module; a float keeps its literal. *)
Inductive json :=
| JNull
| JBool (b : bool)
| JInt (z : Z)
| JFloat (literal : string)
| JStr (s : string)
| JArr (items : list json)
| JObj (fields : list (string * json)).

(** [d.get(k)] on a Python dict kept as an association list. *)
Fixpoint dict_get {V} (k : string) (d : list (string * V)) : option V :=
  match d with
  | [] => None
  | (k', v) :: rest => if String.eqb k k' then Some v else dict_get k rest
  end.

(** [obj[key]] for a string key: only a dict accepts it ([KeyError]
    when the key is missing), every other JSON value raises [TypeError]. *)
Definition subscript (obj : json) (key : string) : result json :=
  match obj with
  | JObj fields =>
      match dict_get key fields with
      | Some v => Ok v
      | None => Raise (KeyError key)
      end
  | _ => Raise TypeError
  end.

(** [for x in obj]: a list yields its items, a dict its keys, a string
    its characters; nothing else is iterable. *)
Definition iterate (obj : json) : result (list json) :=
  match obj with
  | JArr items => Ok items
  | JObj fields => Ok (map (λ kv, JStr (fst kv)) fields)
  | JStr s => Ok (map (λ c, JStr (String c EmptyString)) (list_ascii_of_string s))
  | _ => Raise TypeError
  end.

(* ================================================================== *)
(** * Naive datetimes *)
(* ================================================================== *)

Record datetime := {
  year : Z; month : Z; day : Z;
  hour : Z; minute : Z; second : Z; microsecond : Z
}.

Definition _is_leap (y : Z) : bool :=
  (y mod 4 =? 0) && (negb (y mod 100 =? 0) || (y mod 400 =? 0)).

Definition _days_in_month (y m : Z) : Z :=
  if m =? 2 then (if _is_leap y then 29 else 28)
  else if (m =? 4) || (m =? 6) || (m =? 9) || (m =? 11) then 30
  else 31.

Definition _days_before_year (y : Z) : Z :=
  let y' := y - 1 in y' * 365 + y' / 4 - y' / 100 + y' / 400.

Definition _days_before_month (y m : Z) : Z :=
  nth (Z.to_nat m) [-1; 0; 31; 59; 90; 120; 151; 181; 212; 243; 273; 304; 334] 0
  + (if (2 <? m) && _is_leap y then 1 else 0).

Definition toordinal (d : datetime) : Z :=
  _days_before_year (year d) + _days_before_month (year d) (month d) + day d.

(** The field ranges the [datetime] constructor enforces. *)
Definition valid_datetime (d : datetime) : bool :=
  (1 <=? year d) && (year d <=? 9999)
  && (1 <=? month d) && (month d <=? 12)
  && (1 <=? day d) && (day d <=? _days_in_month (year d) (month d))
  && (0 <=? hour d) && (hour d <? 24)
  && (0 <=? minute d) && (minute d <? 60)
  && (0 <=? second d) && (second d <? 60)
  && (0 <=? microsecond d) && (microsecond d <? 1000000).

(** A [timedelta] is kept as its total number of microseconds. *)
Definition timedelta := Z.

Definition timedelta_of (hours minutes : Z) : timedelta :=
  (hours * 3600 + minutes * 60) * 1000000.

(** [a - b] on datetimes (CPython's [datetime.__sub__]). *)
Definition datetime_sub (a b : datetime) : timedelta :=
  let secs d := second d + minute d * 60 + hour d * 3600 in
  ((toordinal a - toordinal b) * 86400 + (secs a - secs b)) * 1000000
  + (microsecond a - microsecond b).

(** [d.isoformat()]: [YYYY-MM-DDTHH:MM:SS], followed by [.ffffff] when
    the microsecond field is not zero. *)
Definition isoformat (d : datetime) : string :=
  pad_digits 4 (year d) +:+ "-" +:+ pad_digits 2 (month d) +:+ "-" +:+
  pad_digits 2 (day d) +:+ "T" +:+ pad_digits 2 (hour d) +:+ ":" +:+
  pad_digits 2 (minute d) +:+ ":" +:+ pad_digits 2 (second d) +:+
  (if microsecond d =? 0 then "" else "." +:+ pad_digits 6 (microsecond d)).

(** [datetime.fromisoformat(s)] on the two layouts [isoformat] writes
    for a naive datetime; [None] stands for [ValueError].  Other
    ISO-8601 spellings are outside what the cache ever stores and are
    read as invalid here. *)
Definition fromisoformat (s : string) : option datetime :=
  '(y, s) ← read_digits 4 0 s;
  s ← expect "-" s;
  '(mo, s) ← read_digits 2 0 s;
  s ← expect "-" s;
  '(d, s) ← read_digits 2 0 s;
  s ← expect "T" s;
  '(h, s) ← read_digits 2 0 s;
  s ← expect ":" s;
  '(mi, s) ← read_digits 2 0 s;
  s ← expect ":" s;
  '(sec, s) ← read_digits 2 0 s;
  '(us, s) ← match s with
              | EmptyString => Some (0, EmptyString)
              | _ => s ← expect "." s; read_digits 6 0 s
              end;
  match s with
  | EmptyString =>
      let dt := {| year := y; month := mo; day := d; hour := h;
                   minute := mi; second := sec; microsecond := us |} in
      if valid_datetime dt then Some dt else None
  | _ => None
  end.

(* ================================================================== *)
(** * Server parameters and tool schemas *)
(* ================================================================== *)

(** [mcp.StdioServerParameters]: launch command, ordered arguments and
    environment of one tool server. *)
Record StdioServerParameters := {
  command : string;
  args : list string;
  env : gmap string string
}.

Global Instance StdioServerParameters_eq_dec : EqDecision StdioServerParameters.
Proof. solve_decision. Defined.

(** Modelled from the spec: [mcp.types.Tool] is declared outside this
    repository; the spec's ToolSchema gives it a name, a human-readable
    description and an input-shape descriptor. *)
Record Tool := {
  tool_name : string;
  tool_description : option string;
  inputSchema : list (string * json)
}.

(** [tool.model_dump()] *)
Definition model_dump (t : Tool) : json :=
  JObj [("name", JStr (tool_name t));
        ("description", match tool_description t with
                        | Some d => JStr d
                        | None => JNull
                        end);
        ("inputSchema", JObj (inputSchema t))].

(** [types.Tool] on the unpacked [tool]: unpacking needs a mapping;
    validation wants a string [name], a string or null or missing
    [description], and a dict [inputSchema]. *)
Definition Tool_of_kwargs (tool : json) : result Tool :=
  match tool with
  | JObj fields =>
      match dict_get "name" fields, dict_get "inputSchema" fields with
      | Some (JStr n), Some (JObj schema) =>
          match dict_get "description" fields with
          | None | Some JNull =>
              Ok {| tool_name := n; tool_description := None; inputSchema := schema |}
          | Some (JStr d) =>
              Ok {| tool_name := n; tool_description := Some d; inputSchema := schema |}
          | Some _ => Raise ValidationError
          end
      | _, _ => Raise ValidationError
      end
  | _ => Raise TypeError
  end.

(* ================================================================== *)
(** * The world: cache directory, clock and tool servers *)
(* ================================================================== *)

(** What [json.loads(cache_file.read_text())] makes of a file: the read
    fails, the text is not JSON, or it is the document [doc].
    [json.dumps] writes a text that loads back as the dumped value. *)
Inductive file_content :=
| Unreadable
| NotJson (text : string)
| JsonDoc (doc : json).

(** [CACHE_DIR]: whether the directory exists, and its files by name. *)
Record cache_fs := {
  dir_exists : bool;
  files : gmap string file_content
}.

(** [CallToolResult] *)
Record CallToolResult := {
  isError : bool;
  content : list content_block
}.

Definition kwargs := list (string * json).

(** What the process does to the outside, in order. *)
Inductive event :=
| EvNow
| EvSpawn (sp : StdioServerParameters)
| EvInitialize (sp : StdioServerParameters)
| EvListTools (sp : StdioServerParameters)
| EvCallTool (sp : StdioServerParameters) (name : string) (arguments : kwargs)
| EvClose (sp : StdioServerParameters)
| EvPrint (text : string).

(** The collaborators: each answer may depend on everything that
    happened before.  [inl msg] is a failure of the transport or of the
    server process. *)
Record environment := {
  now_at : list event → datetime;
  spawn_at : list event → StdioServerParameters → option string;
  initialize_at : list event → StdioServerParameters → option string;
  list_tools_at : list event → StdioServerParameters → string + list Tool;
  call_tool_at :
    list event → StdioServerParameters → string → kwargs → string + CallToolResult
}.

Record world := {
  history : list event;
  fs : cache_fs
}.

(** State-and-exception monad over the world. *)
Definition M (A : Type) : Type := world → result A * world.

Definition ret {A} (a : A) : M A := λ w, (Ok a, w).

Definition raise {A} (e : exn) : M A := λ w, (Raise e, w).

Definition bind {A B} (m : M A) (k : A → M B) : M B :=
  λ w, match m w with
       | (Ok a, w') => k a w'
       | (Raise e, w') => (Raise e, w')
       end.

Notation "'do' x <- m ; k" := (bind m (λ x, k))
  (at level 10, x pattern, m at level 100, k at level 200).
Notation "m ;; k" := (bind m (λ _, k))
  (at level 100, k at level 200, right associativity).

(** Asks the outside for something: the answer is a function of the
    history so far, and the request itself is appended to it. *)
Definition request {A} (ev : event) (answer : list event → A) : M A :=
  λ w, (Ok (answer (history w)),
        {| history := history w ++ [ev]; fs := fs w |}).

Definition lift_result {A} (r : result A) : M A := λ w, (r, w).

Definition log (e : event) : M unit :=
  λ w, (Ok tt, {| history := history w ++ [e]; fs := fs w |}).

Definition get_fs : M cache_fs := λ w, (Ok (fs w), w).

Definition put_fs (f : cache_fs) : M unit :=
  λ w, (Ok tt, {| history := history w; fs := f |}).

(** [try: body finally: cleanup] *)
Definition finally {A} (body : M A) (cleanup : M unit) : M A :=
  λ w, match body w with
       | (r, w') =>
           match cleanup w' with
           | (Ok _, w'') => (r, w'')
           | (Raise e, w'') => (Raise e, w'')
           end
       end.

Definition of_transport {A} (r : string + A) : result A :=
  match r with
  | inl msg => Raise (SessionError msg)
  | inr a => Ok a
  end.

Definition CACHE_EXPIRY_HOURS : Z := 24.

Definition cache_file_name (cache_key : string) : string :=
  cache_key +:+ ".json".

(** The cache key of line 49. *)
Definition get_cached_tools_key (server_param : StdioServerParameters) : string :=
  str_replace "/" "-"
    (command server_param +:+ "-" +:+ String.concat "-" (args server_param)).

(** The cache key of line 70. *)
Definition save_tools_cache_key (server_param : StdioServerParameters) : string :=
  str_replace "/" "-"
    (command server_param +:+ "-" +:+ String.concat "-" (args server_param)).

Section Client.

Variable E : environment.

(** [datetime.now()] *)
Definition datetime_now : M datetime := request EvNow (now_at E).

(** [CACHE_DIR.mkdir(parents=True, exist_ok=True)] *)
Definition mkdir_cache_dir : M unit :=
  λ w, (Ok tt, {| history := history w;
                  fs := {| dir_exists := true; files := files (fs w) |} |}).

(** [json.loads(cache_file.read_text())] *)
Definition load_json (name : string) : M json :=
  do f <- get_fs;
  match files f !! name with
  | None => raise FileNotFoundError
  | Some Unreadable => raise OSError
  | Some (NotJson _) => raise JSONDecodeError
  | Some (JsonDoc doc) => ret doc
  end.

(** Lines 39-61. *)
Definition get_cached_tools (server_param : StdioServerParameters)
  : M (option (list Tool)) :=
  mkdir_cache_dir ;;
  let cache_key := get_cached_tools_key server_param in
  let cache_file := cache_file_name cache_key in
  do f <- get_fs;
  if negb (bool_decide (is_Some (files f !! cache_file))) then ret None
  else
    do cache_data <- load_json cache_file;
    do stamp <- lift_result (subscript cache_data "cached_at");
    do cached_time <-
      match stamp with
      | JStr s =>
          match fromisoformat s with
          | Some t => ret t
          | None => raise ValueError
          end
      | _ => raise TypeError
      end;
    do now <- datetime_now;
    if timedelta_of CACHE_EXPIRY_HOURS 0 <? datetime_sub now cached_time then ret None
    else
      do listed <- lift_result (subscript cache_data "tools");
      do items <- lift_result (iterate listed);
      do tools <- lift_result (comprehension Tool_of_kwargs items);
      ret (Some tools).

(** Lines 63-77.  [write_text] fails when [CACHE_DIR] does not exist. *)
Definition save_tools_cache (server_param : StdioServerParameters)
    (tools : list Tool) : M unit :=
  let cache_key := save_tools_cache_key server_param in
  let cache_file := cache_file_name cache_key in
  do now <- datetime_now;
  let cache_data :=
    JObj [("cached_at", JStr (isoformat now));
          ("tools", JArr (map model_dump tools))] in
  do f <- get_fs;
  if dir_exists f then
    put_fs {| dir_exists := true;
              files := <[cache_file := JsonDoc cache_data]> (files f) |}
  else raise FileNotFoundError.

(** The tool class of lines 94-112, one instance per schema. *)
Record McpTool := {
  name : string;
  description : option string;
  args_schema : list (string * json);
  mcp_server_params : StdioServerParameters
}.

(** Lines 79-112. *)
Definition create_langchain_tool (tool_schema : Tool)
    (server_params : StdioServerParameters) : McpTool :=
  {| name := tool_name tool_schema;
     description := tool_description tool_schema;
     args_schema := inputSchema tool_schema;
     mcp_server_params := server_params |}.

(** [async with stdio_client(sp) as (read, write):
      async with ClientSession(read, write) as session: body]:
    the child process is spawned on entry and torn down on exit, on the
    normal and the exceptional path alike. *)
Definition stdio_session {A} (sp : StdioServerParameters) (body : M A) : M A :=
  do started <- request (EvSpawn sp) (λ h, spawn_at E h sp);
  match started with
  | Some msg => raise (SessionError msg)
  | None => finally body (log (EvClose sp))
  end.

(** [await session.initialize()] *)
Definition session_initialize (sp : StdioServerParameters) : M unit :=
  do answer <- request (EvInitialize sp) (λ h, initialize_at E h sp);
  match answer with
  | Some msg => raise (SessionError msg)
  | None => ret tt
  end.

(** [await session.list_tools()] *)
Definition session_list_tools (sp : StdioServerParameters) : M (list Tool) :=
  do answer <- request (EvListTools sp) (λ h, list_tools_at E h sp);
  lift_result (of_transport answer).

(** [await session.call_tool(name, arguments=kwargs)] *)
Definition session_call_tool (sp : StdioServerParameters) (tool : string)
    (arguments : kwargs) : M CallToolResult :=
  do answer <- request (EvCallTool sp tool arguments)
                       (λ h, call_tool_at E h sp tool arguments);
  lift_result (of_transport answer).

(** Lines 103-110. *)
Definition _arun (self : McpTool) (arguments : kwargs) : M (list content_block) :=
  stdio_session (mcp_server_params self)
    (session_initialize (mcp_server_params self) ;;
     do result <- session_call_tool (mcp_server_params self) (name self) arguments;
     if isError result then raise (ToolException (content result))
     else ret (content result)).

(** The text printed at line 135. *)
Definition gathering_message (server_param : StdioServerParameters) : string :=
  "Gathering capability of " +:+ command server_param +:+ " " +:+
  String.concat " " (args server_param) +:+ String "010" EmptyString.

(** The loop of lines 125-141; [langchain_tools] is the list built so
    far.  [if cached_tools:] takes the cache branch for a non-empty list
    only. *)
Fixpoint convert_loop (server_params : list StdioServerParameters)
    (langchain_tools : list McpTool) : M (list McpTool) :=
  match server_params with
  | [] => ret langchain_tools
  | server_param :: rest =>
      do cached_tools <- get_cached_tools server_param;
      match cached_tools with
      | Some ((_ :: _) as tools) =>
          convert_loop rest
            (langchain_tools ++
             map (λ t, create_langchain_tool t server_param) tools)%list
      | _ =>
          do langchain_tools' <-
            stdio_session server_param
              (log (EvPrint (gathering_message server_param)) ;;
               session_initialize server_param ;;
               do tools <- session_list_tools server_param;
               save_tools_cache server_param tools ;;
               ret (langchain_tools ++
                    map (λ t, create_langchain_tool t server_param) tools)%list);
          convert_loop rest langchain_tools'
      end
  end.

(** Lines 114-143. *)
Definition convert_mcp_to_langchain_tools
    (server_params : list StdioServerParameters) : M (list McpTool) :=
  convert_loop server_params [].

End Client.

Definition is_spawn_of (sp : StdioServerParameters) (ev : event) : bool :=
  match ev with
  | EvSpawn sp' => bool_decide (sp' = sp)
  | _ => false
  end.

(** [ev] is traffic with the server [sp]: its process, its handshake
    or a request sent to it. *)
Definition concerns (sp : StdioServerParameters) (ev : event) : bool :=
  match ev with
  | EvSpawn sp' | EvInitialize sp' | EvListTools sp' | EvClose sp'
  | EvCallTool sp' _ _ => bool_decide (sp' = sp)
  | EvNow | EvPrint _ => false
  end.

Definition is_call_tool (ev : event) : bool :=
  match ev with
  | EvCallTool _ _ _ => true
  | _ => false
  end.

Fixpoint count_events (p : event → bool) (evs : list event) : nat :=
  match evs with
  | [] => O
  | ev :: rest => ((if p ev then 1 else 0) + count_events p rest)%nat
  end.

(** The number of child processes spawned for [sp] in a run of events. *)
Definition sessions_opened (sp : StdioServerParameters) (evs : list event) : nat :=
  count_events (is_spawn_of sp) evs.

(** The number of events exchanged with [sp] in a run of events. *)
Definition activity (sp : StdioServerParameters) (evs : list event) : nat :=
  count_events (concerns sp) evs.

(** The number of remote calls issued in a run of events. *)
Definition calls_issued (evs : list event) : nat :=
  count_events is_call_tool evs.

(* ================================================================== *)
(** * ConversationManager *)
(* ================================================================== *)

(** One row [(id, thread_id)] of [last_conversation]. *)
Definition row : Type := Z * string.

(** The table in rowid order; [None] when it has not been created. *)
Definition table : Type := option (list row).

(** An open sqlite connection: [durable] is what the database file
    holds (what any other connection reads), [working] what this
    connection sees, its uncommitted changes included. *)
Record connection := {
  durable : table;
  working : table;
  in_transaction : bool
}.

Inductive statement :=
| CreateTableIfNotExists
| Commit
| DeleteAll
| Insert (thread_id : string).

(** The rowid sqlite gives a row inserted without an [id]. *)
Definition next_rowid (rows : list row) : Z :=
  1 + fold_right Z.max 0 (map fst rows).

(** One statement on a connection.  [DELETE] and [INSERT] open a
    transaction when none is open; [CREATE TABLE] outside a transaction
    reaches the file at once. *)
Definition execute (s : statement) (db : connection) : result connection :=
  match s with
  | CreateTableIfNotExists =>
      let created := match working db with
                     | None => Some []
                     | Some rows => Some rows
                     end in
      Ok {| durable := if in_transaction db then durable db else created;
            working := created;
            in_transaction := in_transaction db |}
  | Commit =>
      Ok {| durable := working db; working := working db; in_transaction := false |}
  | DeleteAll =>
      match working db with
      | None => Raise OperationalError
      | Some _ =>
          Ok {| durable := durable db; working := Some []; in_transaction := true |}
      end
  | Insert thread_id =>
      match working db with
      | None => Raise OperationalError
      | Some rows =>
          Ok {| durable := durable db;
                working := Some (rows ++ [(next_rowid rows, thread_id)])%list;
                in_transaction := true |}
      end
  end.

Fixpoint execute_all (ss : list statement) (db : connection) : result connection :=
  match ss with
  | [] => Ok db
  | s :: rest =>
      match execute s db with
      | Ok db' => execute_all rest db'
      | Raise e => Raise e
      end
  end.

(** The connection after each statement of [ss], in order. *)
Fixpoint execute_trace (ss : list statement) (db : connection) : list connection :=
  match ss with
  | [] => []
  | s :: rest =>
      match execute s db with
      | Ok db' => db' :: execute_trace rest db'
      | Raise _ => []
      end
  end.

(** [aiosqlite.connect(db_path)] on a file holding [file]. *)
Definition connect (file : table) : connection :=
  {| durable := file; working := file; in_transaction := false |}.

(** Leaving [async with aiosqlite.connect(...)]: what was not committed
    is lost, the file keeps [durable]. *)
Definition close (db : connection) : table := durable db.

(** [SELECT thread_id FROM last_conversation LIMIT 1], [fetchone()]. *)
Definition select_thread_id (db : connection) : result (option string) :=
  match working db with
  | None => Raise OperationalError
  | Some [] => Ok None
  | Some (r :: _) => Ok (Some (snd r))
  end.

Definition hex_char (d : Z) : ascii :=
  nth (Z.to_nat d) (list_ascii_of_string "0123456789abcdef") "0"%char.

(** ["%0kx" % n] for [0 <= n < 16^k]. *)
Fixpoint hex_digits (k : nat) (n : Z) : string :=
  match k with
  | O => EmptyString
  | S k' => String (hex_char ((n / 16 ^ Z.of_nat k') mod 16)) (hex_digits k' n)
  end.

(** The integer of [uuid.uuid4()] built from the 16 bytes [entropy] of
    [os.urandom]: the RFC 4122 variant and version 4 are stamped over
    six of the 128 bits. *)
Definition uuid4_int (entropy : Z) : Z :=
  let i := entropy mod 2 ^ 128 in
  let i := Z.land i (Z.lnot (Z.shiftl 49152 48)) in
  let i := Z.lor i (Z.shiftl 32768 48) in
  let i := Z.land i (Z.lnot (Z.shiftl 61440 64)) in
  Z.lor i (Z.shiftl 4 76).

(** [uuid.uuid4().hex] *)
Definition uuid4_hex (entropy : Z) : string :=
  hex_digits 32 (uuid4_int entropy).

(** Lines 157-169. *)
Definition _init_db_statements : list statement :=
  [CreateTableIfNotExists; Commit].

Definition _init_db (db : connection) : result connection :=
  execute_all _init_db_statements db.

(** Lines 171-181, on a database file holding [file]; [entropy] is what
    [os.urandom] would deliver.  Returns the id and the file afterwards. *)
Definition get_last_id (file : table) (entropy : Z) : result (string * table) :=
  match _init_db (connect file) with
  | Raise e => Raise e
  | Ok db =>
      match select_thread_id db with
      | Raise e => Raise e
      | Ok (Some thread_id) => Ok (thread_id, close db)
      | Ok None => Ok (uuid4_hex entropy, close db)
      end
  end.

(** Lines 196-210, as the statements the cursor and the connection
    execute. *)
Definition _save_id_statements (thread_id : string) : list statement :=
  _init_db_statements ++ [DeleteAll; Insert thread_id; Commit].

Definition _save_id (db : connection) (thread_id : string) : result connection :=
  execute_all (_save_id_statements thread_id) db.

(** Lines 183-194; returns the database file afterwards. *)
Definition save_id (file : table) (thread_id : string) (db : option connection)
  : result table :=
  match db with
  | None =>
      match _save_id (connect file) thread_id with
      | Ok db' => Ok (close db')
      | Raise e => Raise e
      end
  | Some db =>
      match _save_id db thread_id with
      | Ok db' => Ok (durable db')
      | Raise e => Raise e
      end
  end.

(* ================================================================== *)
(** * The rendering loop of [run] *)
(* ================================================================== *)

(** A Python object as far as the loop looks at it: [None], a string,
    or anything else, kept as its truth value and its [str()]. *)
Inductive pyval :=
| PNone
| PStr (s : string)
| PObj (truth : bool) (shown : string).

Definition truthy (v : pyval) : bool :=
  match v with
  | PNone => false
  | PStr s => negb (String.eqb s "")
  | PObj truth _ => truth
  end.

Definition py_str (v : pyval) : string :=
  match v with
  | PNone => "None"
  | PStr s => s
  | PObj _ shown => shown
  end.

(** The [args] of a tool call: a string, a dict, or anything else. *)
Inductive tool_args :=
| ArgsStr (s : string)
| ArgsDict (items : list (string * pyval))
| ArgsOther.

(** A tool-call dict; [None] is a key that is not set. *)
Record tool_call := {
  tc_name : option pyval;
  tc_error : option pyval;
  tc_args : tool_args
}.

(** One element of a list-valued message content. *)
Inductive content_item :=
| ItemDict (fields : list (string * pyval))
| ItemOther.

Inductive message_content :=
| ContentStr (s : string)
| ContentList (items : list content_item)
| ContentOther.

(** [AIMessageChunk] is a subclass of [AIMessage]. *)
Inductive message :=
| AIMessageChunk (content : message_content) (tool_calls : list tool_call)
| AIMessage (content : message_content) (tool_calls : list tool_call)
| OtherMessage.

(** What [astream] yields, by the shapes the loop tells apart:
    [("messages", (message_chunk, metadata))], a dict (with or without a
    ["messages"] key), [("values", state)] with the state's message
    list, and anything else. *)
Inductive chunk :=
| ChunkMessages (message_chunk : message)
| ChunkDict (has_messages : bool)
| ChunkValues (messages : list message)
| ChunkOther.

(** The spec's StreamEvent union, as chunks. *)
Definition TokenDelta (text : string) : chunk :=
  ChunkMessages (AIMessageChunk (ContentStr text) []).

Definition FinalValue : chunk := ChunkDict true.

Definition ToolCallNotice (calls : list tool_call) : chunk :=
  ChunkValues [AIMessage (ContentStr "") calls].

Definition newline : string := String "010" EmptyString.

(** [print(x, end="", flush=True)] writes [str(x)]; [print(x)] writes
    [str(x)] and a newline.  Each [print] is one write. *)
Definition print_end_empty (x : string) : string := x.
Definition print_line (x : string) : string := x +:+ newline.

(** Lines 313-324: the [lines] list of one tool call. *)
Definition tool_call_lines (tc : tool_call) : list string :=
  let lines := ["  " +:+ match tc_name tc with
                         | Some v => py_str v
                         | None => "Tool"
                         end] in
  let lines :=
    match tc_error tc with
    | Some e => if truthy e then (lines ++ ["  Error: " +:+ py_str e])%list else lines
    | None => lines
    end in
  let lines := (lines ++ ["  Args:"])%list in
  match tc_args tc with
  | ArgsStr a => (lines ++ ["    " +:+ a])%list
  | ArgsDict items =>
      (lines ++ map (λ kv, "    " +:+ fst kv +:+ ": " +:+ py_str (snd kv)) items)%list
  | ArgsOther => lines
  end.

(** Line 325: the block one tool call prints. *)
Definition tool_call_block (tc : tool_call) : string :=
  print_line (String.concat newline (tool_call_lines tc)).

(** Lines 296-325: the writes one chunk causes. *)
Definition render_chunk (c : chunk) : result (list string) :=
  match c with
  | ChunkMessages message_chunk =>
      match message_chunk with
      | AIMessageChunk (ContentStr text) _ => Ok [print_end_empty text]
      | AIMessageChunk (ContentList (ItemDict fields :: _)) _ =>
          match dict_get "text" fields with
          | Some v => Ok [print_end_empty (py_str v)]
          | None => Ok []
          end
      | _ => Ok []
      end
  | ChunkDict true => Ok [print_line newline]
  | ChunkDict false => Ok []
  | ChunkValues messages =>
      match last messages with
      | None => Raise IndexError
      | Some (AIMessage _ ((_ :: _) as calls))
      | Some (AIMessageChunk _ ((_ :: _) as calls)) =>
          Ok (print_line (newline +:+ newline +:+ "Tool Calls:")
              :: map tool_call_block calls)
      | Some _ => Ok []
      end
  | ChunkOther => Ok []
  end.

(** The [async for] of lines 290-325: everything written, in order, and
    how the loop ended. *)
Fixpoint render_stream (chunks : list chunk) : list string * result unit :=
  match chunks with
  | [] => ([], Ok tt)
  | c :: rest =>
      match render_chunk c with
      | Raise e => ([], Raise e)
      | Ok out =>
          let '(out', r) := render_stream rest in ((out ++ out')%list, r)
      end
  end.

(** Lines 290-326: the loop, then the closing [print()]. *)
Definition render (chunks : list chunk) : list string * result unit :=
  match render_stream chunks with
  | (out, Ok _) => ((out ++ [print_line ""])%list, Ok tt)
  | (out, Raise e) => (out, Raise e)
  end.

(* ================================================================== *)
(** * Vocabulary of the statements *)
(* ================================================================== *)

(** The document [save_tools_cache] writes at time [cached_at]. *)
Definition cache_document (cached_at : datetime) (tools : list Tool) : json :=
  JObj [("cached_at", JStr (isoformat cached_at));
        ("tools", JArr (map model_dump tools))].


(** The world once [CACHE_DIR] has been created. *)
Definition with_cache_dir (w : world) : world :=
  {| history := history w;
     fs := {| dir_exists := true; files := files (fs w) |} |}.

(** The world after a cache read that reached the expiry test. *)
Definition after_clock_read (w : world) : world :=
  {| history := history w ++ [EvNow];
     fs := {| dir_exists := true; files := files (fs w) |} |}.





(** A tool call carries an error when its ["error"] entry is set to
    something true: not [None], not the empty string. *)
Definition carries_error (tc : tool_call) : bool :=
  match tc_error tc with
  | Some e => truthy e
  | None => false
  end.

(** The name shown for a tool call: its ["name"], or [Tool] when the
    entry is not set. *)
Definition shown_name (tc : tool_call) : string :=
  match tc_name tc with
  | Some v => py_str v
  | None => "Tool"
  end.

(** One indented line per argument pair, or the raw argument string. *)
Definition args_lines (a : tool_args) : list string :=
  match a with
  | ArgsStr raw => ["    " +:+ raw]
  | ArgsDict items => map (λ kv, "    " +:+ fst kv +:+ ": " +:+ py_str (snd kv)) items
  | ArgsOther => []
  end.

(* ================================================================== *)
(** * Sample inputs *)
(* ================================================================== *)

(** A clock that reads [first] before anything has happened and
    [later] from then on. *)
Definition two_reading_clock (first later : datetime) (h : list event) : datetime :=
  match h with
  | [] => first
  | _ :: _ => later
  end.

(** Servers that always start, and answer every [list_tools] with
    [tools] and every [call_tool] with [answer]. *)
Definition scripted_environment (clock : list event → datetime)
    (tools : list Tool) (answer : CallToolResult) : environment :=
  {| now_at := clock;
     spawn_at := λ _ _, None;
     initialize_at := λ _ _, None;
     list_tools_at := λ _ _, inr tools;
     call_tool_at := λ _ _ _ _, inr answer |}.

Definition noon_feb_28 : datetime :=
  {| year := 2024; month := 2; day := 28;
     hour := 12; minute := 0; second := 0; microsecond := 0 |}.

Definition next_day_1159 : datetime :=
  {| year := 2024; month := 2; day := 29;
     hour := 11; minute := 59; second := 0; microsecond := 0 |}.

Definition next_day_1201 : datetime :=
  {| year := 2024; month := 2; day := 29;
     hour := 12; minute := 1; second := 0; microsecond := 0 |}.

Definition fetch_tool : Tool :=
  {| tool_name := "fetch";
     tool_description := Some "Fetch a URL";
     inputSchema := [("type", JStr "object")] |}.

Definition ok_result : CallToolResult :=
  {| isError := false; content := [TextContent "done"] |}.

Definition failed_result : CallToolResult :=
  {| isError := true; content := [TextContent "no such file"] |}.

Definition fetch_server : StdioServerParameters :=
  {| command := "uvx"; args := ["mcp-server-fetch"]; env := ∅ |}.

Definition fetch_server_with_env : StdioServerParameters :=
  {| command := "uvx"; args := ["mcp-server-fetch"];
     env := {[ "HOME" := "/root" ]} |}.

(** A fresh start: nothing has happened, [CACHE_DIR] exists and holds
    [stored]. *)
Definition initial_world (stored : gmap string file_content) : world :=
  {| history := []; fs := {| dir_exists := true; files := stored |} |}.

(** A cache directory whose file for [fetch_server] is not JSON. *)
Definition garbled_cache : gmap string file_content :=
  {[ "uvx-mcp-server-fetch.json" := NotJson "{" ]}.

(** A server named with a path, and one with the dashed spelling. *)
Definition slash_server : StdioServerParameters :=
  {| command := "bin/tool"; args := []; env := ∅ |}.

Definition dash_server : StdioServerParameters :=
  {| command := "bin-tool"; args := []; env := ∅ |}.


(** The same entry, listing [fetch_tool]. *)
Definition fetch_entry_cache : gmap string file_content :=
  {[ "uvx-mcp-server-fetch.json" := JsonDoc (cache_document noon_feb_28 [fetch_tool]) ]}.

Definition failed_fetch_call : tool_call :=
  {| tc_name := Some (PStr "fetch");
     tc_error := Some (PStr "timeout");
     tc_args := ArgsDict [("url", PStr "http://example.org"); ("depth", PObj true "2")] |}.

Definition plain_fetch_call : tool_call :=
  {| tc_name := Some (PStr "fetch");
     tc_error := None;
     tc_args := ArgsStr "http://example.org" |}.

(* ================================================================== *)
(** * Further vocabulary *)
(* ================================================================== *)

(** [c in s] for a character [c]. *)
Fixpoint contains_char (c : ascii) (s : string) : bool :=
  match s with
  | EmptyString => false
  | String c' rest => Ascii.eqb c' c || contains_char c rest
  end.

(** A cache directory holding, for [fetch_server], an entry stamped
    at noon whose tool list was lost. *)
Definition toolless_entry_cache : gmap string file_content :=
  {[ "uvx-mcp-server-fetch.json" :=
       JsonDoc (JObj [("cached_at", JStr (isoformat noon_feb_28))]) ]}.


Definition is_close_of (sp : StdioServerParameters) (ev : event) : bool :=
  match ev with
  | EvClose sp' => bool_decide (sp' = sp)
  | _ => false
  end.

(** The number of sessions with [sp] torn down in a run of events. *)
Definition sessions_closed (sp : StdioServerParameters) (evs : list event) : nat :=
  count_events (is_close_of sp) evs.



(** An environment like [scripted_environment] in which the server
    [broken] fails to initialize. *)
Definition environment_with_broken_server (clock : list event → datetime)
    (tools : list Tool) (broken : StdioServerParameters) : environment :=
  {| now_at := clock;
     spawn_at := λ _ _, None;
     initialize_at := λ _ sp, if bool_decide (sp = broken) then Some "no handshake"
                              else None;
     list_tools_at := λ _ _, inr tools;
     call_tool_at := λ _ _ _ _, inr ok_result |}.



(** The rows a database file holds; none when the table is absent. *)
Definition rows_of (file : table) : list row :=
  match file with
  | Some rows => rows
  | None => []
  end.

Definition echo_tool : Tool :=
  {| tool_name := "echo"; tool_description := None; inputSchema := [] |}.

(* ================================================================== *)
(** * [run]: query, configuration, conversation *)
(* ================================================================== *)

Definition DEFAULT_QUERY : string :=
  "Summarize https://www.youtube.com/watch?v=NExtKbS1Ljc".

Definition CONFIG_FILE : string := "mcp-server-config.json".

(** The instruction of line 230. *)
Definition COMMIT_QUERY : string :=
  "check git status and diff. Then commit it with descriptive and concise commit msg".

(** [s.startswith(p)] *)
Fixpoint startswith (p s : string) : bool :=
  match p, s with
  | EmptyString, _ => true
  | String a p', String b s' => Ascii.eqb a b && startswith p' s'
  | String _ _, EmptyString => false
  end.

(** [s[n:]] *)
Fixpoint str_drop (n : nat) (s : string) : string :=
  match n, s with
  | O, _ => s
  | S n', String _ rest => str_drop n' rest
  | S _, EmptyString => EmptyString
  end.

Section Query.

(** [str.strip], a function of the Python library. *)
Variable strip : string → string.

(** Lines 222-230.  [stdin] is the text piped in, [None] when the
    standard input is a terminal; [query_args] is [args.query]. *)
Definition resolve_query (stdin : option string) (query_args : list string) : string :=
  let query :=
    match stdin with
    | Some text => strip text
    | None =>
        match query_args with
        | [] => DEFAULT_QUERY
        | _ :: _ => String.concat " " query_args
        end
    end in
  match query_args with
  | first :: _ => if String.eqb first "commit" then COMMIT_QUERY else query
  | [] => query
  end.

End Query.

(** Lines 279-284: the query handed to the agent, the thread id, and the
    store afterwards. *)
Definition resolve_thread (query : string) (file : table) (entropy : Z)
  : result (string * string * table) :=
  let is_continuation := startswith "c " query in
  if is_continuation then
    match get_last_id file entropy with
    | Ok (thread_id, file') => Ok (str_drop 2 query, thread_id, file')
    | Raise e => Raise e
    end
  else Ok (query, uuid4_hex entropy, file).

(** What [agent_executor.astream] does with a query on a thread: the
    chunks it yields, how the stream ends, and whether it leaves the
    checkpointer's connection inside a transaction. *)
Record stream := {
  yielded : list chunk;
  ending : result unit;
  busy : bool
}.

(** What a conversation leaves behind: the writes to [stdout], the
    thread the agent ran on, the store, and how it ended. *)
Record run_report := {
  printed : list string;
  thread : option string;
  store : table;
  outcome : result unit
}.

(** Lines 290-326: the loop over the stream, then the closing
    [print()], which an exception skips. *)
Definition consume (s : stream) : list string * result unit :=
  match render_stream (yielded s) with
  | (out, Raise e) => (out, Raise e)
  | (out, Ok _) =>
      match ending s with
      | Raise e => (out, Raise e)
      | Ok _ => ((out ++ [print_line ""])%list, Ok tt)
      end
  end.

(** Lines 278-329.  [checkpointer.conn] is a connection to the file of
    the store. *)
Definition converse (astream : string → string → stream) (query : string)
    (file : table) (entropy : Z) : run_report :=
  match resolve_thread query file entropy with
  | Raise e => {| printed := []; thread := None; store := file; outcome := Raise e |}
  | Ok (query, thread_id, file) =>
      let s := astream query thread_id in
      match consume s with
      | (out, Raise e) =>
          {| printed := out; thread := Some thread_id; store := file;
             outcome := Raise e |}
      | (out, Ok _) =>
          let conn := {| durable := file; working := file; in_transaction := busy s |} in
          match save_id file thread_id (Some conn) with
          | Ok file' =>
              {| printed := out; thread := Some thread_id; store := file';
                 outcome := Ok tt |}
          | Raise e =>
              {| printed := out; thread := Some thread_id; store := file;
                 outcome := Raise e |}
          end
      end
  end.

(** A path given as a [str] or as a [pathlib.Path]. *)
Inductive pathlike :=
| StrPath (s : string)
| PathObj (s : string).

Definition fspath (p : pathlike) : string :=
  match p with
  | StrPath s | PathObj s => s
  end.

(** [sep.join(items)]: every item has to be a [str]. *)
Definition join_pathlikes (sep : string) (items : list pathlike) : result string :=
  if forallb (λ p, match p with StrPath _ => true | PathObj _ => false end) items
  then Ok (String.concat sep (map fspath items))
  else Raise TypeError.

(** Line 232; [home] is [Path.home()]. *)
Definition config_paths (home : string) : list pathlike :=
  [StrPath CONFIG_FILE; PathObj (home +:+ "/.llm/config.json")].

(** [with open(path) as f: json.load(f)] *)
Definition json_load (c : file_content) : result json :=
  match c with
  | Unreadable => Raise OSError
  | NotJson _ => Raise JSONDecodeError
  | JsonDoc doc => Ok doc
  end.

(** The [for] of lines 233-237: the first path that exists is loaded;
    [None] when the loop ends without [break]. *)
Fixpoint first_config (disk : gmap string file_content) (paths : list pathlike)
  : option (result json) :=
  match paths with
  | [] => None
  | path :: rest =>
      match disk !! fspath path with
      | Some c => Some (json_load c)
      | None => first_config disk rest
      end
  end.

(** Lines 232-239.  The message of the [else] branch is built before
    [FileNotFoundError] is raised. *)
Definition load_server_config (home : string) (disk : gmap string file_content)
  : result json :=
  match first_config disk (config_paths home) with
  | Some loaded => loaded
  | None =>
      match join_pathlikes ", " (config_paths home) with
      | Raise e => Raise e
      | Ok _ => Raise FileNotFoundError
      end
  end.

(** [{**config_env, **os_environ}] *)
Definition merge_env (config_env : list (string * json))
    (os_environ : gmap string string) : gmap string json :=
  (JStr <$> os_environ) ∪ list_to_map config_env.

Definition as_str (v : json) : option string :=
  match v with
  | JStr s => Some s
  | _ => None
  end.

(** A [dict[str, str]] accepted by the validation, as a map. *)
Definition str_values (m : gmap string json) : option (gmap string string) :=
  if bool_decide (map_Forall (λ _ v, is_Some (as_str v)) m)
  then Some (omap as_str m)
  else None.

(** A [list[str]] accepted by the validation. *)
Fixpoint str_items (items : list json) : option (list string) :=
  match items with
  | [] => Some []
  | JStr s :: rest =>
      match str_items rest with
      | Some l => Some (s :: l)
      | None => None
      end
  | _ :: _ => None
  end.

(** Lines 242-246 for one entry of ["mcpServers"]: the keyword arguments
    are evaluated in order, then [StdioServerParameters] validates them. *)
Definition server_param_of_config (os_environ : gmap string string) (config : json)
  : result StdioServerParameters :=
  match subscript config "command" with
  | Raise e => Raise e
  | Ok command_value =>
      let fields := match config with JObj fields => fields | _ => [] end in
      let args_value := default (JArr []) (dict_get "args" fields) in
      match default (JObj []) (dict_get "env" fields) with
      | JObj config_env =>
          match command_value, args_value, str_values (merge_env config_env os_environ) with
          | JStr c, JArr items, Some e =>
              match str_items items with
              | Some a => Ok {| command := c; args := a; env := e |}
              | None => Raise ValidationError
              end
          | _, _, _ => Raise ValidationError
          end
      | _ => Raise TypeError
      end
  end.

(** ASCII white space, as [str.strip] removes it from both ends of an
    ASCII text; used for sample runs only. *)
Definition is_ascii_space (c : ascii) : bool :=
  let n := N_of_ascii c in
  ((9 <=? n)%N && (n <=? 13)%N) || ((28 <=? n)%N && (n <=? 32)%N).

Fixpoint lstrip (s : string) : string :=
  match s with
  | String c rest => if is_ascii_space c then lstrip rest else s
  | EmptyString => EmptyString
  end.

Fixpoint rstrip (s : string) : string :=
  match s with
  | String c rest =>
      match rstrip rest with
      | EmptyString => if is_ascii_space c then EmptyString else String c EmptyString
      | kept => String c kept
      end
  | EmptyString => EmptyString
  end.

Definition ascii_strip (s : string) : string := rstrip (lstrip s).

(** An agent that echoes the query and the thread id. *)
Definition echo_agent (query thread_id : string) : stream :=
  {| yielded := [TokenDelta query; TokenDelta thread_id; FinalValue];
     ending := Ok tt; busy := true |}.

(** An agent whose stream breaks after one token. *)
Definition failing_agent (query thread_id : string) : stream :=
  {| yielded := [TokenDelta query]; ending := Raise (SessionError "model down");
     busy := false |}.

(** Neither the command nor an argument of [sp] holds [/] or [-]. *)
Definition plain_words (sp : StdioServerParameters) : bool :=
  forallb (λ s, negb (contains_char "/" s) && negb (contains_char "-" s))
    (command sp :: args sp).

Definition plain_server : StdioServerParameters :=
  {| command := "uvx"; args := ["server"]; env := ∅ |}.

Definition plain_server_with_env : StdioServerParameters :=
  {| command := "uvx"; args := ["server"]; env := {[ "HOME" := "/root" ]} |}.

(* ================================================================== *)
(** * Strings and timestamps: auxiliary facts *)
(* ================================================================== *)

Open Scope list_scope.

Lemma append_cons c s t : String c s +:+ t = String c (s +:+ t).
Proof. reflexivity. Qed.

Lemma append_nil t : "" +:+ t = t.
Proof. reflexivity. Qed.

Lemma str_replace_app old new s t :
  str_replace old new (s +:+ t) = str_replace old new s +:+ str_replace old new t.
Proof.
  induction s as [|c s IH]; [done |].
  rewrite append_cons. cbn [str_replace]. by rewrite IH, append_cons.
Qed.

Lemma str_replace_concat old new sep l :
  str_replace old new (String.concat sep l)
  = String.concat (str_replace old new sep) (map (str_replace old new) l).
Proof.
  induction l as [|x l IH]; [done |].
  destruct l as [|y l]; [done |].
  change (String.concat sep (x :: y :: l)) with (x +:+ sep +:+ String.concat sep (y :: l)).
  rewrite !str_replace_app, IH. done.
Qed.

Lemma digit_roundtrip d : 0 <= d < 10 → digit_of_ascii (digit_char d) = Some d.
Proof.
  intros Hd.
  assert (d = 0 ∨ d = 1 ∨ d = 2 ∨ d = 3 ∨ d = 4 ∨ d = 5 ∨ d = 6 ∨ d = 7
          ∨ d = 8 ∨ d = 9) as Hcases by lia.
  repeat (destruct Hcases as [-> | Hcases]; [reflexivity |]).
  by subst.
Qed.

Lemma read_digits_pad k : ∀ n acc rest,
  read_digits k acc (pad_digits k n +:+ rest)
  = Some (acc * 10 ^ Z.of_nat k + n mod 10 ^ Z.of_nat k, rest).
Proof.
  induction k as [|k IH]; intros n acc rest.
  - cbn [read_digits pad_digits]. rewrite append_nil. f_equal. f_equal. rewrite Z.mod_1_r. lia.
  - cbn [read_digits pad_digits]. rewrite append_cons.
    rewrite digit_roundtrip by (apply Z.mod_pos_bound; lia).
    rewrite IH. f_equal. f_equal.
    rewrite Nat2Z.inj_succ, Z.pow_succ_r by lia.
    rewrite (Z.mul_comm 10), Z.rem_mul_r by lia. lia.
Qed.

Lemma read_digits_pad_small k n rest :
  0 <= n < 10 ^ Z.of_nat k →
  read_digits k 0 (pad_digits k n +:+ rest) = Some (n, rest).
Proof. intros Hn. rewrite read_digits_pad, Z.mod_small by done. done. Qed.

Lemma _days_in_month_le y m : _days_in_month y m <= 31.
Proof. unfold _days_in_month. repeat case_match; lia. Qed.

Lemma expect_cons c rest : expect c (String c rest) = Some rest.
Proof. unfold expect. by rewrite Ascii.eqb_refl. Qed.

Lemma append_nil_r s : s +:+ "" = s.
Proof. induction s as [|c s IH]; [done |]. by rewrite append_cons, IH. Qed.

Ltac parse_step :=
  rewrite read_digits_pad_small by (vm_compute (10 ^ _); lia);
  cbn [mbind option_bind];
  rewrite ?append_cons, ?append_nil, ?expect_cons;
  cbn [mbind option_bind].

Lemma fromisoformat_isoformat d :
  valid_datetime d = true → fromisoformat (isoformat d) = Some d.
Proof.
  intros Hv. pose proof Hv as Hb. unfold valid_datetime in Hb.
  pose proof (_days_in_month_le (year d) (month d)) as Hdim.
  repeat match goal with
         | H : _ && _ = true |- _ => apply andb_prop in H; destruct H
         end.
  repeat match goal with
         | H : (_ <=? _) = true |- _ => apply Z.leb_le in H
         | H : (_ <? _) = true |- _ => apply Z.ltb_lt in H
         end.
  unfold fromisoformat, isoformat.
  do 5 parse_step.
  destruct (microsecond d =? 0) eqn:Hus.
  - apply Z.eqb_eq in Hus. parse_step.
    destruct d; simpl in *; subst. by rewrite Hv.
  - rewrite <- (append_nil_r (pad_digits 6 _)).
    parse_step. parse_step.
    destruct d; simpl in *. by rewrite Hv.
Qed.

Lemma Tool_of_kwargs_model_dump t : Tool_of_kwargs (model_dump t) = Ok t.
Proof. destruct t as [n [d|] schema]; reflexivity. Qed.

Lemma comprehension_model_dump tools :
  comprehension Tool_of_kwargs (map model_dump tools) = Ok tools.
Proof.
  induction tools as [|t tools IH]; [done |].
  cbn [map comprehension]. by rewrite Tool_of_kwargs_model_dump, IH.
Qed.

Section CacheFacts.

Variable E : environment.

Lemma get_cached_tools_missing sp w :
  files (fs w) !! cache_file_name (get_cached_tools_key sp) = None →
  get_cached_tools E sp w = (Ok None, with_cache_dir w).
Proof.
  intros Hf. unfold get_cached_tools, bind, mkdir_cache_dir, get_fs. simpl.
  rewrite Hf. reflexivity.
Qed.


Lemma get_cached_tools_entry sp w T tools :
  files (fs w) !! cache_file_name (get_cached_tools_key sp)
    = Some (JsonDoc (cache_document T tools)) →
  valid_datetime T = true →
  get_cached_tools E sp w
  = (Ok (if timedelta_of CACHE_EXPIRY_HOURS 0 <? datetime_sub (now_at E (history w)) T
         then None else Some tools),
     after_clock_read w).
Proof.
  intros Hf Hv.
  unfold get_cached_tools, bind, mkdir_cache_dir, get_fs, load_json, bind, get_fs.
  simpl. rewrite Hf. simpl. rewrite Hf. simpl.
  rewrite (fromisoformat_isoformat T Hv). simpl.
  unfold datetime_now, request, lift_result, ret. simpl.
  destruct (timedelta_of CACHE_EXPIRY_HOURS 0 <? datetime_sub (now_at E (history w)) T);
    [done |].
  simpl. by rewrite comprehension_model_dump.
Qed.

Lemma save_tools_cache_written sp tools w :
  dir_exists (fs w) = true →
  save_tools_cache E sp tools w
  = (Ok tt,
     {| history := history w ++ [EvNow];
        fs := {| dir_exists := true;
                 files := <[cache_file_name (save_tools_cache_key sp)
                            := JsonDoc (cache_document (now_at E (history w)) tools)]>
                          (files (fs w)) |} |}).
Proof.
  intros Hd. unfold save_tools_cache, bind, datetime_now, request, get_fs, put_fs.
  simpl. by rewrite Hd.
Qed.

Lemma save_tools_cache_no_dir sp tools w :
  dir_exists (fs w) = false →
  fst (save_tools_cache E sp tools w) = Raise FileNotFoundError.
Proof.
  intros Hd. unfold save_tools_cache, bind, datetime_now, request, get_fs, put_fs.
  simpl. by rewrite Hd.
Qed.

End CacheFacts.

(* ================================================================== *)
(** * The tool cache *)
(* ================================================================== *)

Section CacheProperties.

Variable E : environment.




(** C3: an entry written at time [T] is valid exactly while
    [now - T <= 24h]: a read at [T + 23h59m] returns the tools that were
    written, a read at [T + 24h01m] returns [None], and so does a read
    that finds no file. *)
Theorem cache_entry_valid_for_24_hours sp tools w0 w1 w :
  valid_datetime (now_at E (history w0)) = true →
  save_tools_cache E sp tools w0 = (Ok tt, w1) →
  files (fs w) !! cache_file_name (get_cached_tools_key sp)
    = files (fs w1) !! cache_file_name (get_cached_tools_key sp) →
  let elapsed := datetime_sub (now_at E (history w)) (now_at E (history w0)) in
  (fst (get_cached_tools E sp w) = Ok (Some tools) ↔ elapsed <= timedelta_of 24 0)
  ∧ (fst (get_cached_tools E sp w) = Ok None ↔ timedelta_of 24 0 < elapsed)
  ∧ (elapsed = timedelta_of 23 59 → fst (get_cached_tools E sp w) = Ok (Some tools))
  ∧ (elapsed = timedelta_of 24 1 → fst (get_cached_tools E sp w) = Ok None)
  ∧ ∀ w', files (fs w') !! cache_file_name (get_cached_tools_key sp) = None →
          fst (get_cached_tools E sp w') = Ok None.
Proof.
  intros Hv Hsave Hfs elapsed.
  assert (dir_exists (fs w0) = true) as Hdir.
  { destruct (dir_exists (fs w0)) eqn:Hd; [done |].
    pose proof (save_tools_cache_no_dir E sp tools w0 Hd) as Hno.
    by rewrite Hsave in Hno. }
  rewrite (save_tools_cache_written E sp tools w0 Hdir) in Hsave.
  injection Hsave as <-. simpl in Hfs.
  assert (files (fs w) !! cache_file_name (get_cached_tools_key sp)
          = Some (JsonDoc (cache_document (now_at E (history w0)) tools))) as Hf.
  { rewrite Hfs. apply lookup_insert_eq. }
  rewrite (get_cached_tools_entry E sp w _ tools Hf Hv). simpl. fold elapsed.
  unfold CACHE_EXPIRY_HOURS.
  assert (timedelta_of 23 59 < timedelta_of 24 0 < timedelta_of 24 1) as Hcmp
    by (vm_compute; done).
  destruct (Z.ltb_spec (timedelta_of 24 0) elapsed) as [Hlt | Hle].
  - repeat split; try done; try lia.
    intros w' Hmiss. by rewrite (get_cached_tools_missing E sp w' Hmiss).
  - repeat split; try done; try lia.
    intros w' Hmiss. by rewrite (get_cached_tools_missing E sp w' Hmiss).
Qed.

End CacheProperties.



Lemma cache_entry_valid_for_24_hours_witness :
  let E := scripted_environment (two_reading_clock noon_feb_28 next_day_1159)
             [fetch_tool] ok_result in
  let w0 := initial_world ∅ in
  let w1 := snd (save_tools_cache E fetch_server [fetch_tool] w0) in
  datetime_sub next_day_1159 noon_feb_28 = timedelta_of 23 59
  ∧ fst (get_cached_tools E fetch_server w1) = Ok (Some [fetch_tool]).
Proof.
  intros E w0 w1. split; [reflexivity |].
  destruct (cache_entry_valid_for_24_hours E fetch_server [fetch_tool] w0 w1 w1)
    as (_ & _ & Hfresh & _); [reflexivity.. |].
  apply Hfresh. reflexivity.
Defined.

Example cache_entry_expired_after_24h01m :
  let E := scripted_environment (two_reading_clock noon_feb_28 next_day_1201)
             [fetch_tool] ok_result in
  let w1 := snd (save_tools_cache E fetch_server [fetch_tool] (initial_world ∅)) in
  datetime_sub next_day_1201 noon_feb_28 = timedelta_of 24 1
  ∧ fst (get_cached_tools E fetch_server w1) = Ok None.
Proof. split; reflexivity. Qed.

(* ================================================================== *)
(** * The cache key *)
(* ================================================================== *)

Lemma get_cached_tools_key_only (E : environment) sp1 sp2 w :
  get_cached_tools_key sp1 = get_cached_tools_key sp2 →
  get_cached_tools E sp1 w = get_cached_tools E sp2 w.
Proof. intros Hk. unfold get_cached_tools. by rewrite Hk. Qed.

Lemma save_tools_cache_key_only (E : environment) sp1 sp2 tools w :
  save_tools_cache_key sp1 = save_tools_cache_key sp2 →
  save_tools_cache E sp1 tools w = save_tools_cache E sp2 tools w.
Proof. intros Hk. unfold save_tools_cache. by rewrite Hk. Qed.

(** C4: two servers with the same command and the same ordered
    arguments derive the same cache key, on the read and on the write
    path, whatever their environments; the cache operations cannot tell
    them apart. *)
Theorem cache_key_ignores_env sp1 sp2 :
  command sp1 = command sp2 →
  args sp1 = args sp2 →
  get_cached_tools_key sp1 = get_cached_tools_key sp2
  ∧ save_tools_cache_key sp1 = save_tools_cache_key sp2
  ∧ get_cached_tools_key sp1 = save_tools_cache_key sp2
  ∧ (∀ E w, get_cached_tools E sp1 w = get_cached_tools E sp2 w)
  ∧ (∀ E tools w, save_tools_cache E sp1 tools w = save_tools_cache E sp2 tools w).
Proof.
  intros Hc Ha.
  assert (get_cached_tools_key sp1 = get_cached_tools_key sp2) as Hk
    by (unfold get_cached_tools_key; by rewrite Hc, Ha).
  assert (save_tools_cache_key sp1 = save_tools_cache_key sp2) as Hs
    by (unfold save_tools_cache_key; by rewrite Hc, Ha).
  repeat split; try done.
  - intros E w. by apply get_cached_tools_key_only.
  - intros E tools w. by apply save_tools_cache_key_only.
Qed.

Lemma cache_key_ignores_env_witness :
  env fetch_server ≠ env fetch_server_with_env
  ∧ get_cached_tools_key fetch_server = get_cached_tools_key fetch_server_with_env
  ∧ save_tools_cache_key fetch_server = save_tools_cache_key fetch_server_with_env.
Proof.
  split.
  - intros Heq.
    assert (env fetch_server !! "HOME" = env fetch_server_with_env !! "HOME") as Hl
      by (by rewrite Heq).
    vm_compute in Hl. discriminate.
  - pose proof (cache_key_ignores_env fetch_server fetch_server_with_env
                  eq_refl eq_refl) as (Hr & Hs & _).
    by split.
Defined.

Lemma cache_key_replaced sp :
  get_cached_tools_key sp
  = str_replace "/" "-" (command sp) +:+ "-" +:+
    String.concat "-" (map (str_replace "/" "-") (args sp)).
Proof.
  unfold get_cached_tools_key.
  by rewrite !str_replace_app, str_replace_concat.
Qed.

(** C10 (as stated) fails at its own example: command ["a"] with
    arguments [["b"]] derives ["a-b"], command ["a-b"] with no arguments
    derives ["a-b-"]. *)
Lemma cache_key_example_keys_differ :
  get_cached_tools_key {| command := "a"; args := ["b"]; env := ∅ |} = "a-b"
  ∧ get_cached_tools_key {| command := "a-b"; args := []; env := ∅ |} = "a-b-"
  ∧ get_cached_tools_key {| command := "a"; args := ["b"]; env := ∅ |}
    ≠ get_cached_tools_key {| command := "a-b"; args := []; env := ∅ |}.
Proof. repeat split; [reflexivity.. | discriminate]. Qed.

(** C10 (as amended): the key is not injective on (command, args).
    Command ["a"] with arguments [["b"; "c"]] and command ["a-b"] with
    arguments [["c"]] share the key ["a-b-c"]; two servers whose commands
    and arguments agree once every ["/"] is read as ["-"] share their
    key; and a tool list saved for one server is returned, while fresh,
    to any server deriving the same key. *)
Theorem cache_key_not_injective :
  (let sp1 := {| command := "a"; args := ["b"; "c"]; env := ∅ |} in
   let sp2 := {| command := "a-b"; args := ["c"]; env := ∅ |} in
   (command sp1, args sp1) ≠ (command sp2, args sp2)
   ∧ get_cached_tools_key sp1 = get_cached_tools_key sp2)
  ∧ (∀ sp1 sp2,
       str_replace "/" "-" (command sp1) = str_replace "/" "-" (command sp2) →
       map (str_replace "/" "-") (args sp1) = map (str_replace "/" "-") (args sp2) →
       get_cached_tools_key sp1 = get_cached_tools_key sp2
       ∧ save_tools_cache_key sp1 = save_tools_cache_key sp2)
  ∧ (∀ E sp1 sp2 tools w0 w1,
       get_cached_tools_key sp2 = save_tools_cache_key sp1 →
       valid_datetime (now_at E (history w0)) = true →
       save_tools_cache E sp1 tools w0 = (Ok tt, w1) →
       datetime_sub (now_at E (history w1)) (now_at E (history w0))
         <= timedelta_of 24 0 →
       fst (get_cached_tools E sp2 w1) = Ok (Some tools)).
Proof.
  split; [| split].
  - split; [discriminate | reflexivity].
  - intros sp1 sp2 Hc Ha.
    assert (get_cached_tools_key sp1 = get_cached_tools_key sp2) as Hk
      by (by rewrite !cache_key_replaced, Hc, Ha).
    split; [done |]. exact Hk.
  - intros E sp1 sp2 tools w0 w1 Hk Hv Hsave Hfresh.
    assert (dir_exists (fs w0) = true) as Hdir.
    { destruct (dir_exists (fs w0)) eqn:Hd; [done |].
      pose proof (save_tools_cache_no_dir E sp1 tools w0 Hd) as Hno.
      by rewrite Hsave in Hno. }
    rewrite (save_tools_cache_written E sp1 tools w0 Hdir) in Hsave.
    injection Hsave as <-.
    rewrite (get_cached_tools_entry E sp2 _ (now_at E (history w0)) tools).
    + simpl. unfold CACHE_EXPIRY_HOURS.
      destruct (Z.ltb_spec (timedelta_of 24 0)
                  (datetime_sub (now_at E (history w0 ++ [EvNow]))
                     (now_at E (history w0)))) as [Hlt | Hle]; [| done].
      simpl in Hfresh. lia.
    + simpl. rewrite Hk. apply lookup_insert_eq.
    + done.
Qed.

Lemma cache_key_not_injective_witness :
  (command slash_server, args slash_server) ≠ (command dash_server, args dash_server)
  ∧ get_cached_tools_key slash_server = get_cached_tools_key dash_server
  ∧ fst (get_cached_tools
           (scripted_environment (λ _, noon_feb_28) [fetch_tool] ok_result)
           dash_server
           (snd (save_tools_cache
                   (scripted_environment (λ _, noon_feb_28) [fetch_tool] ok_result)
                   slash_server [fetch_tool] (initial_world ∅))))
    = Ok (Some [fetch_tool]).
Proof.
  destruct cache_key_not_injective as (_ & Hslash & Hshared).
  split; [discriminate |]. split.
  - apply (Hslash slash_server dash_server); reflexivity.
  - apply (Hshared _ slash_server dash_server [fetch_tool] (initial_world ∅));
      [reflexivity | reflexivity | reflexivity | vm_compute; discriminate].
Defined.

(* ================================================================== *)
(** * Discovery *)
(* ================================================================== *)

Lemma string_length_append s t :
  String.length (s +:+ t) = (String.length s + String.length t)%nat.
Proof. induction s as [|c s IH]; [done |]. rewrite append_cons. simpl. by rewrite IH. Qed.



Lemma count_events_app p evs evs' :
  count_events p (evs ++ evs') = (count_events p evs + count_events p evs')%nat.
Proof. induction evs as [|ev evs IH]; simpl; [done | rewrite IH; lia]. Qed.




Section Discovery.

Variable E : environment.












End Discovery.



Example discovery_sessions_counted :
  let run := convert_mcp_to_langchain_tools
               (scripted_environment (λ _, next_day_1159) [fetch_tool] ok_result)
               [fetch_server; dash_server] (initial_world fetch_entry_cache) in
  sessions_opened fetch_server (history (snd run)) = 0%nat
  ∧ activity fetch_server (history (snd run)) = 0%nat
  ∧ sessions_opened dash_server (history (snd run)) = 1%nat.
Proof. repeat split; reflexivity. Qed.

Example discovery_keeps_configuration_order :
  fst (convert_mcp_to_langchain_tools
         (scripted_environment (λ _, next_day_1159) [fetch_tool] ok_result)
         [fetch_server; dash_server] (initial_world fetch_entry_cache))
  = Ok [create_langchain_tool fetch_tool fetch_server;
        create_langchain_tool fetch_tool dash_server].
Proof. reflexivity. Qed.

(* ================================================================== *)
(** * The tool adapter *)
(* ================================================================== *)

Section Adapter.

Variable E : environment.

(** Every way a call of [_arun] can go. *)
Lemma _arun_outcome self arguments w :
  let sp := mcp_server_params self in
  let h := history w in
  _arun E self arguments w =
  match spawn_at E h sp with
  | Some msg =>
      (Raise (SessionError msg), {| history := h ++ [EvSpawn sp]; fs := fs w |})
  | None =>
      match initialize_at E (h ++ [EvSpawn sp]) sp with
      | Some msg =>
          (Raise (SessionError msg),
           {| history := h ++ [EvSpawn sp; EvInitialize sp; EvClose sp]; fs := fs w |})
      | None =>
          (match call_tool_at E (h ++ [EvSpawn sp; EvInitialize sp]) sp
                   (name self) arguments with
           | inl msg => Raise (SessionError msg)
           | inr result =>
               if isError result then Raise (ToolException (content result))
               else Ok (content result)
           end,
           {| history := h ++ [EvSpawn sp; EvInitialize sp;
                               EvCallTool sp (name self) arguments; EvClose sp];
              fs := fs w |})
      end
  end.
Proof.
  intros sp h. unfold _arun, stdio_session, bind at 1, request. simpl. fold sp h.
  destruct (spawn_at E h sp) as [msg|]; [reflexivity |].
  unfold finally, bind, session_initialize, bind, request, log. simpl.
  destruct (initialize_at E (h ++ [EvSpawn sp]) sp) as [msg|]; simpl.
  { rewrite <- !app_assoc. reflexivity. }
  unfold session_call_tool, bind, request. simpl.
  rewrite <- !app_assoc. simpl.
  destruct (call_tool_at E _ sp (name self) arguments) as [msg | result]; simpl;
    [by rewrite <- !app_assoc |].
  destruct (isError result); simpl; by rewrite <- !app_assoc.
Qed.


End Adapter.


(* ================================================================== *)
(** * The conversation store *)
(* ================================================================== *)

(** C5: whatever the connection held, [_save_id] succeeds and leaves
    exactly the row of the saved id in the database file, and
    [get_last_id] then returns that id; [DELETE] and [INSERT] run inside
    one transaction, so the file keeps its previous rows until the final
    commit replaces them by the single new row. *)
Theorem save_id_then_get_last_id db thread_id entropy :
  (∃ db', _save_id db thread_id = Ok db'
          ∧ durable db' = Some [(1, thread_id)]
          ∧ get_last_id (durable db') entropy = Ok (thread_id, durable db'))
  ∧ (∀ file, save_id file thread_id None = Ok (Some [(1, thread_id)]))
  ∧ save_id (durable db) thread_id (Some db) = Ok (Some [(1, thread_id)])
  ∧ ∃ created committed deleted inserted final,
      execute_trace (_save_id_statements thread_id) db
      = [created; committed; deleted; inserted; final]
      ∧ durable deleted = durable committed
      ∧ durable inserted = durable committed
      ∧ in_transaction deleted = true
      ∧ in_transaction inserted = true
      ∧ working inserted = Some [(1, thread_id)]
      ∧ in_transaction final = false
      ∧ durable final = Some [(1, thread_id)].
Proof.
  destruct db as [d [rows|] t]; repeat split;
    try (intros [[|]|]; reflexivity);
    try (eexists; repeat split; reflexivity);
    try reflexivity;
    by (do 5 eexists; repeat split).
Qed.

Lemma hex_digits_length k n : String.length (hex_digits k n) = k.
Proof. induction k as [|k IH]; simpl; [done | by rewrite IH]. Qed.

Lemma small_constant_high_bit c n :
  0 <= c < 2 ^ 128 → 128 <= n → Z.testbit c n = false.
Proof.
  intros [Hc0 Hc] Hn. destruct (decide (c = 0)) as [-> | Hne];
    [apply Z.bits_0 |].
  apply Z.bits_above_log2; [done |].
  assert (Z.log2 c < 128) by (apply Z.log2_lt_pow2; lia). lia.
Qed.

Lemma uuid4_int_128_bits entropy : 0 <= uuid4_int entropy < 2 ^ 128.
Proof.
  assert (uuid4_int entropy = uuid4_int entropy mod 2 ^ 128) as ->;
    [| apply Z.mod_pos_bound; lia].
  apply Z.bits_inj'. intros n Hn.
  destruct (Z_lt_le_dec n 128) as [Hlow | Hhigh].
  - by rewrite Z.mod_pow2_bits_low.
  - rewrite Z.mod_pow2_bits_high by lia.
    unfold uuid4_int.
    rewrite Z.lor_spec, Z.land_spec, Z.lor_spec, Z.land_spec.
    rewrite (Z.mod_pow2_bits_high entropy 128 n) by lia.
    rewrite (small_constant_high_bit (Z.shiftl 32768 48) n) by (vm_compute; done || lia).
    rewrite (small_constant_high_bit (Z.shiftl 4 76) n) by (vm_compute; done || lia).
    reflexivity.
Qed.

Lemma low_16_bits c m (f : Z → bool) :
  0 <= c < 2 ^ 16 →
  forallb (λ i, Bool.eqb (Z.testbit c i) (f i))
    [0; 1; 2; 3; 4; 5; 6; 7; 8; 9; 10; 11; 12; 13; 14; 15] = true →
  (m < 0 ∨ 16 <= m → f m = false) →
  Z.testbit c m = f m.
Proof.
  intros Hc Hlow Hout.
  destruct (Z_lt_le_dec m 0) as [Hneg | Hpos].
  { rewrite Z.testbit_neg_r by done. symmetry. apply Hout. by left. }
  destruct (Z_lt_le_dec m 16) as [Hlt | Hge].
  - rewrite forallb_forall in Hlow.
    apply Bool.eqb_prop, Hlow.
    assert (m = 0 ∨ m = 1 ∨ m = 2 ∨ m = 3 ∨ m = 4 ∨ m = 5 ∨ m = 6 ∨ m = 7 ∨ m = 8
            ∨ m = 9 ∨ m = 10 ∨ m = 11 ∨ m = 12 ∨ m = 13 ∨ m = 14 ∨ m = 15) as Hm by lia.
    repeat destruct Hm as [-> | Hm]; try subst m; simpl; tauto.
  - rewrite (Hout (or_intror Hge)).
    destruct (decide (c = 0)) as [-> | Hne]; [apply Z.bits_0 |].
    apply Z.bits_above_log2; [lia |].
    assert (Z.log2 c < 16) by (apply Z.log2_lt_pow2; lia). lia.
Qed.

Lemma uuid4_int_entropy_bits entropy n :
  0 <= n < 128 → n ≠ 62 → n ≠ 63 → ¬ (76 <= n <= 79) →
  Z.testbit (uuid4_int entropy) n = Z.testbit entropy n.
Proof.
  intros Hn H62 H63 Hver. unfold uuid4_int.
  rewrite Z.lor_spec, Z.land_spec, Z.lor_spec, Z.land_spec.
  rewrite !Z.lnot_spec, !Z.shiftl_spec by lia.
  rewrite Z.mod_pow2_bits_low by lia.
  rewrite (low_16_bits 49152 (n - 48) (λ i, (i =? 14) || (i =? 15)));
    [| lia | reflexivity | lia].
  rewrite (low_16_bits 32768 (n - 48) (λ i, i =? 15)); [| lia | reflexivity | lia].
  rewrite (low_16_bits 61440 (n - 64) (λ i, (12 <=? i) && (i <=? 15)));
    [| lia | reflexivity | lia].
  rewrite (low_16_bits 4 (n - 76) (λ i, i =? 2)); [| lia | reflexivity | lia].
  destruct (Z.eqb_spec (n - 48) 14); [lia |].
  destruct (Z.eqb_spec (n - 48) 15); [lia |].
  destruct (Z.eqb_spec (n - 76) 2); [lia |].
  destruct (Z.leb_spec 12 (n - 64)); destruct (Z.leb_spec (n - 64) 15); simpl;
    try lia; by rewrite ?andb_true_r, ?orb_false_r.
Qed.

(** C6: when the store holds no record, [get_last_id] returns the
    identifier minted from the random bytes, a 128-bit number written as
    32 hexadecimal digits whose bits, the six of the UUID version and
    variant apart, are the random ones; it persists nothing: the table
    holds no row afterwards, so the minted id is not in the store. *)
Theorem get_last_id_mints_without_saving file entropy :
  file = None ∨ file = Some [] →
  get_last_id file entropy = Ok (uuid4_hex entropy, Some [])
  ∧ uuid4_hex entropy = hex_digits 32 (uuid4_int entropy)
  ∧ 0 <= uuid4_int entropy < 2 ^ 128
  ∧ String.length (uuid4_hex entropy) = 32%nat
  ∧ (∀ n, 0 <= n < 128 → n ≠ 62 → n ≠ 63 → ¬ (76 <= n <= 79) →
          Z.testbit (uuid4_int entropy) n = Z.testbit entropy n)
  ∧ ∀ id file', get_last_id file entropy = Ok (id, file') →
      ∀ rows, file' = Some rows → rows = [] ∧ id ∉ map snd rows.
Proof.
  intros Hfile.
  assert (get_last_id file entropy = Ok (uuid4_hex entropy, Some [])) as Hget
    by (destruct Hfile as [-> | ->]; reflexivity).
  split; [exact Hget |]. split; [reflexivity |].
  split; [apply uuid4_int_128_bits |].
  split; [apply hex_digits_length |].
  split; [apply uuid4_int_entropy_bits |].
  intros id file' Heq rows ->. rewrite Hget in Heq. injection Heq as <- <-.
  split; [done |]. apply not_elem_of_nil.
Qed.

Lemma get_last_id_mints_without_saving_witness :
  get_last_id None 5 = Ok ("00000000000040008000000000000005", Some []).
Proof.
  apply (proj1 (get_last_id_mints_without_saving None 5 (or_introl eq_refl))).
Defined.

(* ================================================================== *)
(** * The rendering loop *)
(* ================================================================== *)

Lemma render_stream_app cs cs' :
  render_stream (cs ++ cs')
  = match render_stream cs with
    | (out, Ok _) => let '(out', r) := render_stream cs' in (out ++ out', r)
    | (out, Raise e) => (out, Raise e)
    end.
Proof.
  induction cs as [|c cs IH]; simpl.
  - by destruct (render_stream cs').
  - destruct (render_chunk c) as [out | e]; [| done].
    rewrite IH. destruct (render_stream cs) as [out1 [[] | e]].
    + destruct (render_stream cs') as [out2 r]. by rewrite app_assoc.
    + done.
Qed.

Lemma render_stream_all_ok cs outs :
  Forall2 (λ c out, render_chunk c = Ok out) cs outs →
  render_stream cs = (concat outs, Ok tt).
Proof.
  induction 1 as [|c out cs outs Hc _ IH]; simpl; [done |].
  by rewrite Hc, IH.
Qed.

(** C8: a message chunk whose content is a string is written as it
    is; one whose content is a list starting with a dict that has a
    ["text"] entry writes that text; any other content writes nothing and
    raises nothing; the writes of a stream are the writes of its chunks
    in the order of the chunks; and [Hello], [ world], final value gives
    ["Hello"], [" world"] and a blank line. *)
Theorem render_stream_in_emission_order :
  (∀ text calls,
     render_chunk (ChunkMessages (AIMessageChunk (ContentStr text) calls)) = Ok [text])
  ∧ (∀ fields rest calls v,
       dict_get "text" fields = Some v →
       render_chunk (ChunkMessages
                       (AIMessageChunk (ContentList (ItemDict fields :: rest)) calls))
       = Ok [py_str v])
  ∧ (∀ content calls,
       (∀ text, content ≠ ContentStr text) →
       (∀ fields rest, content = ContentList (ItemDict fields :: rest) →
                       dict_get "text" fields = None) →
       render_chunk (ChunkMessages (AIMessageChunk content calls)) = Ok [])
  ∧ (∀ cs outs,
       Forall2 (λ c out, render_chunk c = Ok out) cs outs →
       render_stream cs = (concat outs, Ok tt))
  ∧ (∀ cs cs' out out',
       render_stream cs = (out, Ok tt) →
       render_stream cs' = (out', Ok tt) →
       render_stream (cs ++ cs') = (out ++ out', Ok tt))
  ∧ render_stream [TokenDelta "Hello"; TokenDelta " world"; FinalValue]
    = (["Hello"; " world"; newline +:+ newline], Ok tt).
Proof.
  repeat split.
  - intros fields rest calls v Hv. simpl. by rewrite Hv.
  - intros content calls Hstr Hlist.
    destruct content as [text | [| [fields|] rest] |]; simpl; try done.
    + by destruct (Hstr text).
    + by rewrite (Hlist fields rest eq_refl).
  - apply render_stream_all_ok.
  - intros cs cs' out out' Hcs Hcs'. by rewrite render_stream_app, Hcs, Hcs'.
Qed.

Lemma render_stream_in_emission_order_witness :
  render_stream ([TokenDelta "Hello"; TokenDelta " world"] ++ [FinalValue])
  = (["Hello"; " world"] ++ [newline +:+ newline], Ok tt).
Proof.
  destruct render_stream_in_emission_order as (_ & _ & _ & _ & Happ & _).
  apply Happ; reflexivity.
Defined.

(** C9: the block of a tool call starts with the line of its name;
    its second line is an [Error:] line exactly when the call carries an
    error; then comes the [Args:] line, followed by one indented line per
    argument pair, or by the raw argument string. *)
Theorem tool_call_block_layout tc :
  tool_call_block tc = String.concat newline (tool_call_lines tc) +:+ newline
  ∧ tool_call_lines tc !! 0%nat = Some ("  " +:+ shown_name tc)
  ∧ ((∃ e, tool_call_lines tc !! 1%nat = Some ("  Error: " +:+ e))
     ↔ carries_error tc = true)
  ∧ (∀ e, tc_error tc = Some e → truthy e = true →
       tool_call_lines tc
       = ("  " +:+ shown_name tc) :: ("  Error: " +:+ py_str e) :: "  Args:"
         :: args_lines (tc_args tc))
  ∧ (carries_error tc = false →
       tool_call_lines tc
       = ("  " +:+ shown_name tc) :: "  Args:" :: args_lines (tc_args tc)).
Proof.
  destruct tc as [n e a]. unfold tool_call_lines, carries_error, shown_name. simpl.
  split; [reflexivity |].
  split; [destruct e as [e|]; [destruct (truthy e) |]; destruct a; reflexivity |].
  split; [| split].
  - destruct e as [e|]; [destruct (truthy e) eqn:Ht |].
    + split; [done |]. intros _. exists (py_str e). by destruct a.
    + split; [| done]. intros [msg Hmsg]. by destruct a.
    + split; [| done]. intros [msg Hmsg]. by destruct a.
  - intros e' [= ->] ->. by destruct a.
  - intros Hno. destruct e as [e|]; [rewrite Hno |]; by destruct a.
Qed.

Lemma tool_call_block_layout_witness :
  tool_call_lines failed_fetch_call
  = ["  fetch"; "  Error: timeout"; "  Args:";
     "    url: http://example.org"; "    depth: 2"]
  ∧ tool_call_lines plain_fetch_call
    = ["  fetch"; "  Args:"; "    http://example.org"].
Proof.
  split.
  - destruct (tool_call_block_layout failed_fetch_call) as (_ & _ & _ & Herr & _).
    apply (Herr (PStr "timeout")); reflexivity.
  - destruct (tool_call_block_layout plain_fetch_call) as (_ & _ & _ & _ & Hplain).
    apply Hplain; reflexivity.
Defined.

Example render_hello_world :
  render [TokenDelta "Hello"; TokenDelta " world"; FinalValue]
  = (["Hello"; " world"; newline +:+ newline; newline], Ok tt).
Proof. reflexivity. Qed.

Example render_tool_call_notice :
  render_chunk (ToolCallNotice [failed_fetch_call; plain_fetch_call])
  = Ok [newline +:+ newline +:+ "Tool Calls:" +:+ newline;
        "  fetch" +:+ newline +:+ "  Error: timeout" +:+ newline +:+
        "  Args:" +:+ newline +:+ "    url: http://example.org" +:+ newline +:+
        "    depth: 2" +:+ newline;
        "  fetch" +:+ newline +:+ "  Args:" +:+ newline +:+
        "    http://example.org" +:+ newline].
Proof. reflexivity. Qed.

Example render_empty_state_raises :
  render [TokenDelta "Hi"; ChunkValues []; TokenDelta "lost"]
  = (["Hi"], Raise IndexError).
Proof. reflexivity. Qed.

(* ================================================================== *)
(** * More on the tool cache *)
(* ================================================================== *)

Lemma contains_char_replace old new s :
  old ≠ new → contains_char old (str_replace old new s) = false.
Proof.
  intros Hne. induction s as [|c s IH]; [done |].
  cbn [str_replace contains_char]. rewrite IH, orb_false_r.
  destruct (Ascii.eqb_spec c old) as [-> | Hc].
  - apply Ascii.eqb_neq. congruence.
  - by apply Ascii.eqb_neq.
Qed.

Lemma contains_char_app c s t :
  contains_char c (s +:+ t) = contains_char c s || contains_char c t.
Proof.
  induction s as [|c' s IH]; [done |].
  rewrite append_cons. cbn [contains_char]. by rewrite IH, orb_assoc.
Qed.

(** X1: the cache key holds no path separator, and neither does the
    name of the cache file, on the read and on the write path; the file
    therefore sits directly in the cache directory. *)
Theorem cache_file_has_no_path_separator sp :
  contains_char "/" (get_cached_tools_key sp) = false
  ∧ contains_char "/" (save_tools_cache_key sp) = false
  ∧ contains_char "/" (cache_file_name (get_cached_tools_key sp)) = false
  ∧ contains_char "/" (cache_file_name (save_tools_cache_key sp)) = false.
Proof.
  change (save_tools_cache_key sp) with (get_cached_tools_key sp).
  assert (contains_char "/" (get_cached_tools_key sp) = false) as Hk
    by (by apply contains_char_replace).
  repeat split; try exact Hk;
    unfold cache_file_name; rewrite contains_char_app; by rewrite Hk.
Qed.

Section CacheFrame.

Variable E : environment.

(** Every way a cache read can end leaves one of two worlds. *)
Lemma get_cached_tools_world sp w :
  snd (get_cached_tools E sp w) = with_cache_dir w
  ∨ snd (get_cached_tools E sp w) = after_clock_read w.
Proof.
  unfold get_cached_tools, bind, mkdir_cache_dir, get_fs, load_json, bind, get_fs.
  simpl.
  destruct (files (fs w) !! cache_file_name (get_cached_tools_key sp))
    as [[|text|doc]|] eqn:Hf; simpl; rewrite ?Hf; simpl; try (by left).
  destruct (subscript doc "cached_at") as [[| | | |s| |]|]; simpl; try (by left).
  destruct (fromisoformat s) as [T|]; simpl; [| by left].
  destruct (_ <? _); simpl; [by right |].
  unfold lift_result.
  destruct (subscript doc "tools") as [listed|]; simpl; [| by right].
  destruct (iterate listed) as [items|]; simpl; [| by right].
  destruct (comprehension Tool_of_kwargs items); simpl; by right.
Qed.

(** X2: a cache read never writes: whatever the file holds and however
    the read ends, the files of the cache directory are as before, the
    directory exists afterwards, and the history has grown by at most
    one reading of the clock; no server is contacted. *)
Theorem get_cached_tools_only_reads sp w :
  files (fs (snd (get_cached_tools E sp w))) = files (fs w)
  ∧ dir_exists (fs (snd (get_cached_tools E sp w))) = true
  ∧ (history (snd (get_cached_tools E sp w)) = history w
     ∨ history (snd (get_cached_tools E sp w)) = history w ++ [EvNow])
  ∧ ∀ sp', activity sp' (history (snd (get_cached_tools E sp w)))
           = activity sp' (history w).
Proof.
  destruct (get_cached_tools_world sp w) as [-> | ->]; simpl;
    repeat split; auto.
  intros sp'. unfold activity. rewrite count_events_app. simpl. lia.
Qed.

(** X3: a cache write replaces the whole file of its key and touches no
    other file: after two writes for the same key only the second list
    is stored, whatever the file held before. *)
Theorem save_tools_cache_overwrites sp tools tools' w w1 w2 :
  save_tools_cache E sp tools w = (Ok tt, w1) →
  save_tools_cache E sp tools' w1 = (Ok tt, w2) →
  files (fs w2) !! cache_file_name (save_tools_cache_key sp)
    = Some (JsonDoc (cache_document (now_at E (history w1)) tools'))
  ∧ ∀ name, name ≠ cache_file_name (save_tools_cache_key sp) →
            files (fs w2) !! name = files (fs w) !! name.
Proof.
  intros H1 H2.
  assert (dir_exists (fs w) = true) as Hd.
  { destruct (dir_exists (fs w)) eqn:Hd; [done |].
    pose proof (save_tools_cache_no_dir E sp tools w Hd) as Hno.
    by rewrite H1 in Hno. }
  rewrite (save_tools_cache_written E sp tools w Hd) in H1. injection H1 as <-.
  rewrite save_tools_cache_written in H2 by done. injection H2 as <-. simpl.
  split; [apply lookup_insert_eq |].
  intros name Hne. by rewrite !lookup_insert_ne.
Qed.


End CacheFrame.

Lemma comprehension_raises {A B} (f : A → result B) xs x e :
  x ∈ xs → f x = Raise e → ∃ e', comprehension f xs = Raise e'.
Proof.
  intros Hin Hx. induction xs as [|y xs IH]; [by apply elem_of_nil in Hin |].
  apply elem_of_cons in Hin as [<- | Hin]; cbn [comprehension].
  - rewrite Hx. eauto.
  - destruct (f y); [| eauto]. destruct (IH Hin) as [e' ->]. eauto.
Qed.

Section CacheDecoding.

Variable E : environment.

(** X5: the expiry test comes before the tool list is looked at: an
    entry past its expiry yields [None] whatever its ["tools"] entry is,
    even none at all; an unexpired entry without ["tools"] raises
    [KeyError]; and an unexpired entry one of whose items is not a valid
    tool raises instead of returning the valid ones. *)
Theorem expiry_is_tested_before_decoding sp w fields s T :
  files (fs w) !! cache_file_name (get_cached_tools_key sp)
    = Some (JsonDoc (JObj fields)) →
  dict_get "cached_at" fields = Some (JStr s) →
  fromisoformat s = Some T →
  let elapsed := datetime_sub (now_at E (history w)) T in
  (timedelta_of CACHE_EXPIRY_HOURS 0 < elapsed →
     fst (get_cached_tools E sp w) = Ok None)
  ∧ (elapsed <= timedelta_of CACHE_EXPIRY_HOURS 0 →
     dict_get "tools" fields = None →
     fst (get_cached_tools E sp w) = Raise (KeyError "tools"))
  ∧ (elapsed <= timedelta_of CACHE_EXPIRY_HOURS 0 →
     ∀ items item e,
       dict_get "tools" fields = Some (JArr items) →
       item ∈ items → Tool_of_kwargs item = Raise e →
       ∃ e', fst (get_cached_tools E sp w) = Raise e').
Proof.
  intros Hf Hstamp Hiso elapsed.
  assert (get_cached_tools E sp w
          = (if timedelta_of CACHE_EXPIRY_HOURS 0 <? elapsed then ret None
             else
               do listed <- lift_result (subscript (JObj fields) "tools");
               do items <- lift_result (iterate listed);
               do tools <- lift_result (comprehension Tool_of_kwargs items);
               ret (Some tools)) (after_clock_read w)) as ->.
  { unfold get_cached_tools, bind at 1 2 3 4 5, mkdir_cache_dir, get_fs, load_json,
      bind at 1, get_fs. simpl. rewrite Hf. simpl. rewrite Hf. simpl.
    rewrite Hstamp. simpl. rewrite Hiso. reflexivity. }
  split; [| split].
  - intros Hexp. apply Z.ltb_lt in Hexp. by rewrite Hexp.
  - intros Hfresh Hnone. apply Z.ltb_ge in Hfresh. rewrite Hfresh.
    unfold bind, lift_result. simpl. by rewrite Hnone.
  - intros Hfresh items item e Htools Hin Hbad. apply Z.ltb_ge in Hfresh.
    rewrite Hfresh. unfold bind, lift_result. simpl. rewrite Htools. simpl.
    destruct (comprehension_raises Tool_of_kwargs items item e Hin Hbad) as [e' ->].
    eauto.
Qed.

End CacheDecoding.

Lemma expiry_is_tested_before_decoding_witness :
  fst (get_cached_tools (scripted_environment (λ _, next_day_1201) [] ok_result)
         fetch_server (initial_world toolless_entry_cache)) = Ok None
  ∧ fst (get_cached_tools (scripted_environment (λ _, next_day_1159) [] ok_result)
           fetch_server (initial_world toolless_entry_cache))
    = Raise (KeyError "tools").
Proof.
  split.
  - apply (expiry_is_tested_before_decoding
             (scripted_environment (λ _, next_day_1201) [] ok_result) fetch_server
             (initial_world toolless_entry_cache)
             [("cached_at", JStr (isoformat noon_feb_28))]
             (isoformat noon_feb_28) noon_feb_28);
      [reflexivity | reflexivity | reflexivity | vm_compute; reflexivity].
  - apply (expiry_is_tested_before_decoding
             (scripted_environment (λ _, next_day_1159) [] ok_result) fetch_server
             (initial_world toolless_entry_cache)
             [("cached_at", JStr (isoformat noon_feb_28))]
             (isoformat noon_feb_28) noon_feb_28);
      [reflexivity | reflexivity | reflexivity | vm_compute; discriminate
      | reflexivity].
Defined.

Lemma save_tools_cache_overwrites_witness :
  let E := scripted_environment (λ _, noon_feb_28) [] ok_result in
  let w1 := snd (save_tools_cache E fetch_server [fetch_tool] (initial_world garbled_cache)) in
  let w2 := snd (save_tools_cache E fetch_server [] w1) in
  files (fs w2) !! cache_file_name (save_tools_cache_key fetch_server)
    = Some (JsonDoc (cache_document noon_feb_28 []))
  ∧ ∀ name, name ≠ cache_file_name (save_tools_cache_key fetch_server) →
            files (fs w2) !! name = files (fs (initial_world garbled_cache)) !! name.
Proof.
  intros E w1 w2.
  apply (save_tools_cache_overwrites E fetch_server [fetch_tool] []
           (initial_world garbled_cache) w1 w2); reflexivity.
Defined.


(* ================================================================== *)
(** * More on discovery *)
(* ================================================================== *)

Section DiscoveryRuns.

Variable E : environment.













End DiscoveryRuns.





(* ================================================================== *)
(** * More on the tool adapter *)
(* ================================================================== *)

Section AdapterRuns.

Variable E : environment.

(** X10: an invocation leaves the cache directory alone and never
    talks to another server; it spawns one process; once the process is
    spawned the session is closed again, last of all, whatever the
    handshake and the call do; a failed spawn is followed by nothing, and
    a failed handshake by no call. *)
Theorem _arun_closes_its_session self arguments w :
  let sp := mcp_server_params self in
  let h := history w in
  fs (snd (_arun E self arguments w)) = fs w
  ∧ ∃ evs,
      history (snd (_arun E self arguments w)) = h ++ evs
      ∧ sessions_opened sp evs = 1%nat
      ∧ (∀ sp', sp' ≠ sp → activity sp' evs = 0%nat)
      ∧ (spawn_at E h sp = None →
           sessions_closed sp evs = 1%nat ∧ last evs = Some (EvClose sp))
      ∧ (spawn_at E h sp ≠ None → evs = [EvSpawn sp])
      ∧ (spawn_at E h sp = None →
         initialize_at E (h ++ [EvSpawn sp]) sp ≠ None →
         calls_issued evs = 0%nat).
Proof.
  intros sp h. rewrite (_arun_outcome E self arguments w). fold sp h.
  unfold sessions_opened, sessions_closed, activity, calls_issued.
  destruct (spawn_at E h sp) as [msg|]; simpl.
  { split; [done |]. exists [EvSpawn sp]. simpl.
    rewrite bool_decide_eq_true_2 by done. repeat split; try done.
    intros sp' Hne. by rewrite bool_decide_eq_false_2. }
  destruct (initialize_at E (h ++ [EvSpawn sp]) sp) as [msg|]; simpl.
  - split; [done |]. eexists. split; [reflexivity |]. simpl.
    rewrite !bool_decide_eq_true_2 by done. repeat split; try done.
    intros sp' Hne. by rewrite !bool_decide_eq_false_2.
  - split; [done |]. eexists. split; [reflexivity |]. simpl.
    rewrite !bool_decide_eq_true_2 by done. repeat split; try done.
    intros sp' Hne. by rewrite !bool_decide_eq_false_2.
Qed.

(** X11: sessions are not pooled: two invocations one after the other
    on a server that starts and initializes spawn two processes and
    close both, each call running in a session of its own, whatever the
    first call answered. *)
Theorem _arun_twice_opens_two_sessions self1 self2 arguments1 arguments2 w :
  mcp_server_params self1 = mcp_server_params self2 →
  let sp := mcp_server_params self1 in
  (∀ h, spawn_at E h sp = None) →
  (∀ h, initialize_at E h sp = None) →
  history (snd (_arun E self2 arguments2 (snd (_arun E self1 arguments1 w))))
  = history w ++
    [EvSpawn sp; EvInitialize sp; EvCallTool sp (name self1) arguments1; EvClose sp;
     EvSpawn sp; EvInitialize sp; EvCallTool sp (name self2) arguments2; EvClose sp].
Proof.
  intros Hsame sp Hspawn Hinit.
  assert (∀ self arguments w0,
            mcp_server_params self = sp →
            history (snd (_arun E self arguments w0))
            = history w0 ++ [EvSpawn sp; EvInitialize sp;
                             EvCallTool sp (name self) arguments; EvClose sp]) as Hone.
  { intros self arguments w0 Hsp. rewrite (_arun_outcome E self arguments w0).
    cbv zeta. rewrite Hsp, Hspawn, Hinit. reflexivity. }
  rewrite (Hone self2) by done. rewrite (Hone self1) by done.
  by rewrite <- app_assoc.
Qed.

End AdapterRuns.

Lemma _arun_closes_its_session_witness :
  let E := environment_with_broken_server (λ _, noon_feb_28) [fetch_tool] fetch_server in
  ∃ evs,
    history (snd (_arun E (create_langchain_tool fetch_tool fetch_server) []
                    (initial_world ∅))) = [] ++ evs
    ∧ sessions_closed fetch_server evs = 1%nat
    ∧ calls_issued evs = 0%nat.
Proof.
  intros E.
  destruct (_arun_closes_its_session E (create_langchain_tool fetch_tool fetch_server)
              [] (initial_world ∅)) as (_ & evs & Hh & _ & _ & Hclosed & _ & Hnocall).
  exists evs. split; [exact Hh |]. split.
  - apply Hclosed. reflexivity.
  - apply Hnocall; [reflexivity | discriminate].
Defined.

Lemma _arun_twice_opens_two_sessions_witness :
  let E := scripted_environment (λ _, noon_feb_28) [fetch_tool; echo_tool] failed_result in
  sessions_opened fetch_server
    (history (snd (_arun E (create_langchain_tool echo_tool fetch_server) []
                     (snd (_arun E (create_langchain_tool fetch_tool fetch_server) []
                             (initial_world ∅)))))) = 2%nat.
Proof.
  intros E.
  rewrite (_arun_twice_opens_two_sessions E
             (create_langchain_tool fetch_tool fetch_server)
             (create_langchain_tool echo_tool fetch_server) [] [] (initial_world ∅)
             eq_refl); [reflexivity | done | done].
Defined.

(* ================================================================== *)
(** * More on the conversation store *)
(* ================================================================== *)

(** X12: [get_last_id] never fails and never changes the rows of the
    store, which it leaves with its table created; when there is a row it
    returns the thread id of the first one and draws no random id. *)
Theorem get_last_id_reads_only file entropy :
  ∃ id,
    get_last_id file entropy = Ok (id, Some (rows_of file))
    ∧ (∀ r rest, rows_of file = r :: rest →
         id = snd r ∧ ∀ entropy', get_last_id file entropy' = get_last_id file entropy).
Proof.
  destruct file as [[|r rest]|]; eexists; (split; [reflexivity |]);
    intros r' rest' [=]; subst; by split.
Qed.

(* ================================================================== *)
(** * The query and the thread of a run *)
(* ================================================================== *)

Lemma get_last_id_total file entropy :
  get_last_id file entropy
  = Ok (match rows_of file with
        | r :: _ => snd r
        | [] => uuid4_hex entropy
        end, Some (rows_of file)).
Proof. by destruct file as [[|r rest]|]. Qed.

Lemma str_drop_prefix q : str_drop 2 ("c " +:+ q) = q.
Proof. reflexivity. Qed.

Lemma startswith_prefix q : startswith "c " ("c " +:+ q) = true.
Proof. reflexivity. Qed.

(** X13: the marker of a continuation is the two characters [c] and
    space at the very start of the query.  With the marker exactly these
    two characters are removed and the thread is the one of the first
    stored row, or a new one when nothing is stored; without it the query
    is passed on whole, a new thread id is drawn even if one is stored,
    and the store is not opened. *)
Theorem resolve_thread_continuation query file entropy :
  (∀ q, query = "c " +:+ q →
     resolve_thread query file entropy
     = Ok (q, match rows_of file with
              | r :: _ => snd r
              | [] => uuid4_hex entropy
              end, Some (rows_of file)))
  ∧ (startswith "c " query = false →
     resolve_thread query file entropy = Ok (query, uuid4_hex entropy, file)).
Proof.
  split.
  - intros q ->. unfold resolve_thread.
    by rewrite startswith_prefix, get_last_id_total, str_drop_prefix.
  - intros Hno. unfold resolve_thread. by rewrite Hno.
Qed.

Lemma resolve_thread_continuation_witness :
  resolve_thread ("c " +:+ " and then?") (Some [(1, "abc")]) 5
  = Ok (" and then?", "abc", Some [(1, "abc")])
  ∧ resolve_thread "continue" (Some [(1, "abc")]) 5
    = Ok ("continue", uuid4_hex 5, Some [(1, "abc")]).
Proof.
  destruct (resolve_thread_continuation ("c " +:+ " and then?") (Some [(1, "abc")]) 5)
    as [Hcont _].
  destruct (resolve_thread_continuation "continue" (Some [(1, "abc")]) 5)
    as [_ Hnew].
  split; [apply (Hcont " and then?"); reflexivity | apply Hnew; reflexivity].
Defined.

Section QueryFacts.

Variable strip : string → string.

(** X14: a first word [commit] replaces the query by the fixed
    instruction even when a text is piped in; otherwise a piped text is
    the query and the words of the command line are ignored; without
    pipe and words the default query is used.  The instruction and the
    default query always start a new thread and leave the store closed. *)
Theorem commit_and_default_start_new_thread stdin query_args file entropy :
  let query := resolve_query strip stdin query_args in
  (∀ rest, query_args = "commit" :: rest →
     query = COMMIT_QUERY
     ∧ resolve_thread query file entropy = Ok (COMMIT_QUERY, uuid4_hex entropy, file))
  ∧ (stdin = None → query_args = [] →
     query = DEFAULT_QUERY
     ∧ resolve_thread query file entropy = Ok (DEFAULT_QUERY, uuid4_hex entropy, file))
  ∧ (∀ text first rest,
       stdin = Some text → query_args = first :: rest → first ≠ "commit" →
       query = strip text)
  ∧ (∀ text, stdin = Some text → query_args = [] → query = strip text).
Proof.
  intros query. subst query. split; [| split; [| split]].
  - intros rest ->. by split.
  - intros -> ->. by split.
  - intros text first rest -> -> Hne. unfold resolve_query.
    destruct (String.eqb_spec first "commit"); [done | reflexivity].
  - by intros text -> ->.
Qed.

(** X15: on a terminal the words of the command line, joined by single
    spaces, are the query; a first word [c] followed by more words
    therefore continues the last thread with the remaining words as
    query, while a lone [c] is an ordinary query on a new thread. *)
Theorem first_word_c_continues word words file entropy :
  resolve_query strip None ("c" :: word :: words)
    = "c " +:+ String.concat " " (word :: words)
  ∧ resolve_thread (resolve_query strip None ("c" :: word :: words)) file entropy
    = Ok (String.concat " " (word :: words),
          match rows_of file with
          | r :: _ => snd r
          | [] => uuid4_hex entropy
          end, Some (rows_of file))
  ∧ resolve_thread (resolve_query strip None ["c"]) file entropy
    = Ok ("c", uuid4_hex entropy, file).
Proof.
  assert (resolve_query strip None ("c" :: word :: words)
          = "c " +:+ String.concat " " (word :: words)) as Hq by reflexivity.
  split; [exact Hq |]. split; [| reflexivity].
  rewrite Hq. unfold resolve_thread.
  by rewrite startswith_prefix, get_last_id_total, str_drop_prefix.
Qed.

End QueryFacts.

Lemma commit_and_default_start_new_thread_witness :
  resolve_query ascii_strip (Some "  c what next  ") ["commit"] = COMMIT_QUERY
  ∧ resolve_query ascii_strip (Some "  c what next  ") ["ask"; "it"] = "c what next".
Proof.
  destruct (commit_and_default_start_new_thread ascii_strip (Some "  c what next  ")
              ["commit"] None 0) as (Hcommit & _).
  destruct (commit_and_default_start_new_thread ascii_strip (Some "  c what next  ")
              ["ask"; "it"] None 0) as (_ & _ & Hpiped & _).
  split.
  - apply (Hcommit []). reflexivity.
  - rewrite (Hpiped "  c what next  " "ask" ["it"]); [reflexivity.. | discriminate].
Defined.

(* ================================================================== *)
(** * The life of a conversation *)
(* ================================================================== *)

Lemma save_id_on_connection file thread_id db :
  save_id file thread_id (Some db) = Ok (Some [(1, thread_id)]).
Proof. by destruct db as [d [rows|] t]. Qed.

Lemma resolve_thread_total query file entropy :
  ∃ q t f, resolve_thread query file entropy = Ok (q, t, f)
           ∧ rows_of f = rows_of file
           ∧ (startswith "c " query = true →
              ∀ r rest, rows_of file = r :: rest → t = snd r).
Proof.
  unfold resolve_thread. destruct (startswith "c " query).
  - rewrite get_last_id_total. do 3 eexists. split; [reflexivity |].
    split; [done |]. by intros _ r rest ->.
  - do 3 eexists. by split.
Qed.

(** Every way a conversation can go. *)
Lemma converse_outcome astream query file entropy :
  ∃ q t f,
    resolve_thread query file entropy = Ok (q, t, f)
    ∧ rows_of f = rows_of file
    ∧ converse astream query file entropy
      = match consume (astream q t) with
        | (out, Raise e) =>
            {| printed := out; thread := Some t; store := f; outcome := Raise e |}
        | (out, Ok _) =>
            {| printed := out; thread := Some t; store := Some [(1, t)];
               outcome := Ok tt |}
        end.
Proof.
  destruct (resolve_thread_total query file entropy) as (q & t & f & Hres & Hrows & _).
  exists q, t, f. split; [done |]. split; [done |].
  unfold converse. rewrite Hres.
  destruct (consume (astream q t)) as [out [[]|e]]; [| done].
  by rewrite save_id_on_connection.
Qed.

(** X16: a conversation that ends normally leaves exactly one row in
    the store, holding the thread it ran on; every later continuation
    runs on that thread, whatever its agent does, and leaves the row as
    it is, whether it ends normally or not. *)
Theorem completed_run_is_resumed astream query file entropy
    astream' query' entropy' :
  outcome (converse astream query file entropy) = Ok tt →
  ∃ t,
    thread (converse astream query file entropy) = Some t
    ∧ store (converse astream query file entropy) = Some [(1, t)]
    ∧ thread (converse astream' ("c " +:+ query')
                (store (converse astream query file entropy)) entropy') = Some t
    ∧ store (converse astream' ("c " +:+ query')
               (store (converse astream query file entropy)) entropy') = Some [(1, t)].
Proof.
  intros Hok.
  destruct (converse_outcome astream query file entropy) as (q & t & f & _ & _ & Hrun).
  rewrite Hrun in *.
  destruct (consume (astream q t)) as [out [[]|e]]; [| discriminate]. simpl.
  exists t. split; [done |]. split; [done |].
  destruct (converse_outcome astream' ("c " +:+ query') (Some [(1, t)]) entropy')
    as (q2 & t2 & f2 & Hres2 & _ & Hrun2).
  rewrite Hrun2.
  destruct (resolve_thread_continuation ("c " +:+ query') (Some [(1, t)]) entropy')
    as [Hcont _].
  rewrite (Hcont query' eq_refl) in Hres2. simpl in Hres2.
  injection Hres2 as <- <- <-.
  by destruct (consume (astream' query' t)) as [out2 [[]|e2]].
Qed.

(** X17: a conversation that does not end normally, because a chunk
    cannot be rendered or because the stream breaks, saves nothing: the
    rows of the store are those it started with, and the closing newline
    is not printed; one that ends normally has printed it last. *)
Theorem failed_run_saves_nothing astream query file entropy :
  let report := converse astream query file entropy in
  (outcome report ≠ Ok tt →
     rows_of (store report) = rows_of file
     ∧ ∃ q t f, resolve_thread query file entropy = Ok (q, t, f)
                ∧ thread report = Some t
                ∧ printed report = fst (render_stream (yielded (astream q t))))
  ∧ (outcome report = Ok tt → last (printed report) = Some newline).
Proof.
  intros report. subst report.
  destruct (converse_outcome astream query file entropy)
    as (q & t & f & Hres & Hrows & Hrun).
  rewrite Hrun. unfold consume.
  destruct (render_stream (yielded (astream q t))) as [out [[]|e]] eqn:Hr; simpl.
  - destruct (ending (astream q t)) as [[]|e]; simpl.
    + split; [done |]. intros _. by rewrite last_snoc.
    + split; [| done]. intros _. split; [done |]. exists q, t, f.
      split; [done |]. split; [done |]. by rewrite Hr.
  - split; [| done]. intros _. split; [done |]. exists q, t, f.
    split; [done |]. split; [done |]. by rewrite Hr.
Qed.

Lemma completed_run_is_resumed_witness :
  thread (converse failing_agent ("c " +:+ "and then?")
            (store (converse echo_agent "hello" None 5)) 9) = Some (uuid4_hex 5)
  ∧ store (converse failing_agent ("c " +:+ "and then?")
             (store (converse echo_agent "hello" None 5)) 9)
    = Some [(1, uuid4_hex 5)].
Proof.
  destruct (completed_run_is_resumed echo_agent "hello" None 5
              failing_agent "and then?" 9 eq_refl) as (t & Ht & _ & Hthread & Hstore).
  injection Ht as <-. by split.
Defined.

Lemma failed_run_saves_nothing_witness :
  rows_of (store (converse failing_agent "hello" (Some [(1, "abc")]) 5))
  = [(1, "abc")].
Proof.
  destruct (failed_run_saves_nothing failing_agent "hello" (Some [(1, "abc")]) 5)
    as [Hfail _].
  apply Hfail. discriminate.
Defined.

(* ================================================================== *)
(** * Configuration *)
(* ================================================================== *)

(** X18: the configuration in the working directory is preferred to
    the one in the home directory, which is read only when the first does
    not exist; an existing file that cannot be read or parsed raises and
    is not skipped; and when neither exists the error raised is
    [TypeError], from joining a [Path] into the message, and not
    [FileNotFoundError]. *)
Theorem load_server_config_lookup home disk :
  (∀ c, disk !! CONFIG_FILE = Some c → load_server_config home disk = json_load c)
  ∧ (∀ c, disk !! CONFIG_FILE = None →
          disk !! (home +:+ "/.llm/config.json") = Some c →
          load_server_config home disk = json_load c)
  ∧ (disk !! CONFIG_FILE = None →
     disk !! (home +:+ "/.llm/config.json") = None →
     load_server_config home disk = Raise TypeError).
Proof.
  unfold load_server_config, config_paths. cbn [first_config fspath].
  split; [| split].
  - by intros c ->.
  - by intros c -> ->.
  - by intros -> ->.
Qed.

Lemma load_server_config_lookup_witness :
  load_server_config "/home/u"
    {[ "mcp-server-config.json" := NotJson "{";
       "/home/u/.llm/config.json" := JsonDoc (JObj []) ]} = Raise JSONDecodeError
  ∧ load_server_config "/home/u" ∅ = Raise TypeError.
Proof.
  destruct (load_server_config_lookup "/home/u"
              {[ "mcp-server-config.json" := NotJson "{";
                 "/home/u/.llm/config.json" := JsonDoc (JObj []) ]}) as (Hlocal & _).
  destruct (load_server_config_lookup "/home/u" ∅) as (_ & _ & Hnone).
  split.
  - by rewrite (Hlocal (NotJson "{")).
  - apply Hnone; reflexivity.
Defined.

Lemma list_to_map_dict_get (l : list (string * json)) k :
  (list_to_map l : gmap string json) !! k = dict_get k l.
Proof.
  induction l as [|[k' v] l IH]; [apply lookup_empty |].
  cbn [list_to_map foldr dict_get]. simpl.
  destruct (String.eqb_spec k k') as [-> | Hne].
  - apply lookup_insert_eq.
  - rewrite lookup_insert_ne by done. exact IH.
Qed.

(** X19: whenever the parameters of a configured server can be built,
    the command is the configured one, a missing ["args"] entry gives no
    arguments, every variable of the process environment is in the
    server's environment with the value the process has, and a variable
    of the configured ["env"] is there only if the process has none of
    that name.  Without a ["command"] entry [KeyError] is raised. *)
Theorem server_param_env_precedence os_environ fields sp :
  (server_param_of_config os_environ (JObj fields) = Ok sp →
     dict_get "command" fields = Some (JStr (command sp))
     ∧ (dict_get "args" fields = None → args sp = [])
     ∧ (∀ k v, os_environ !! k = Some v → env sp !! k = Some v)
     ∧ (∀ k config_env,
          os_environ !! k = None →
          dict_get "env" fields = Some (JObj config_env) →
          env sp !! k = dict_get k config_env ≫= as_str)
     ∧ (∀ k, os_environ !! k = None → dict_get "env" fields = None →
             env sp !! k = None))
  ∧ (dict_get "command" fields = None →
     server_param_of_config os_environ (JObj fields) = Raise (KeyError "command")).
Proof.
  unfold server_param_of_config, subscript. split.
  - destruct (dict_get "command" fields) as [command_value|]; [| discriminate].
    set (args_value := default (JArr []) (dict_get "args" fields)).
    destruct (default (JObj []) (dict_get "env" fields))
      as [| | | | | |config_env] eqn:Henv; try discriminate.
    destruct command_value as [| | | |c| |]; try discriminate.
    destruct args_value as [| | | | |items|] eqn:Hargs; try discriminate.
    unfold str_values. case_bool_decide; [| discriminate].
    destruct (str_items items) as [a|] eqn:Hitems; [| discriminate].
    intros [= <-]. simpl.
    assert (∀ k, omap as_str (merge_env config_env os_environ) !! k
                 = match os_environ !! k with
                   | Some v => Some v
                   | None => dict_get k config_env ≫= as_str
                   end) as Hlook.
    { intros k. unfold merge_env.
      rewrite lookup_omap, lookup_union, lookup_fmap, list_to_map_dict_get.
      destruct (os_environ !! k) as [v|]; simpl.
      - by destruct (dict_get k config_env).
      - by destruct (dict_get k config_env). }
    split; [done |]. split; [| split; [| split]].
    + intros Hnone. subst args_value. rewrite Hnone in Hargs. simpl in Hargs.
      injection Hargs as <-. simpl in Hitems. by injection Hitems as <-.
    + intros k v Hk. by rewrite Hlook, Hk.
    + intros k config_env' Hk Hcfg. rewrite Hcfg in Henv. simpl in Henv.
      injection Henv as <-. by rewrite Hlook, Hk.
    + intros k Hk Hcfg. rewrite Hcfg in Henv. simpl in Henv.
      injection Henv as <-. by rewrite Hlook, Hk.
  - by intros ->.
Qed.

Lemma server_param_env_precedence_witness :
  ∃ sp,
    server_param_of_config {[ "PATH" := "/usr/bin" ]}
      (JObj [("command", JStr "uvx");
             ("env", JObj [("PATH", JStr "/opt/bin"); ("TOKEN", JStr "secret")])])
    = Ok sp
    ∧ args sp = []
    ∧ env sp !! "PATH" = Some "/usr/bin"
    ∧ env sp !! "TOKEN" = Some "secret".
Proof.
  eexists. split; [reflexivity |].
  match goal with
  | |- args ?sp = _ ∧ _ =>
      destruct (server_param_env_precedence {[ "PATH" := "/usr/bin" ]}
                  [("command", JStr "uvx");
                   ("env", JObj [("PATH", JStr "/opt/bin"); ("TOKEN", JStr "secret")])]
                  sp) as [Hok _]
  end.
  destruct (Hok eq_refl) as (_ & Hargs & Hos & Hcfg & _).
  split; [by apply Hargs |]. split.
  - by apply Hos.
  - rewrite (Hcfg "TOKEN" [("PATH", JStr "/opt/bin"); ("TOKEN", JStr "secret")]);
      reflexivity.
Defined.

(* ================================================================== *)
(** * More on the rendering loop *)
(* ================================================================== *)

(** X20: a state snapshot is rendered from its latest message alone:
    the messages before it change nothing.  An AI message with tool calls
    writes the heading and then one block per call, in the order of the
    calls; any other latest message writes nothing; and a snapshot
    without messages raises [IndexError]. *)
Theorem values_chunk_shows_latest_message_only earlier latest :
  render_chunk (ChunkValues (earlier ++ [latest])) = render_chunk (ChunkValues [latest])
  ∧ (∀ content call calls,
       latest = AIMessage content (call :: calls)
       ∨ latest = AIMessageChunk content (call :: calls) →
       render_chunk (ChunkValues (earlier ++ [latest]))
       = Ok (print_line (newline +:+ newline +:+ "Tool Calls:")
             :: map tool_call_block (call :: calls)))
  ∧ (latest = OtherMessage
     ∨ (∃ content, latest = AIMessage content [] ∨ latest = AIMessageChunk content []) →
     render_chunk (ChunkValues (earlier ++ [latest])) = Ok [])
  ∧ render_chunk (ChunkValues []) = Raise IndexError.
Proof.
  assert (render_chunk (ChunkValues (earlier ++ [latest]))
          = render_chunk (ChunkValues [latest])) as Hlast.
  { cbn [render_chunk]. by rewrite last_snoc. }
  rewrite Hlast. split; [done |]. split; [| split; [| done]].
  - by intros content call calls [-> | ->].
  - by intros [-> | [content [-> | ->]]].
Qed.

Lemma render_stream_tokens texts :
  render_stream (map TokenDelta texts) = (texts, Ok tt).
Proof.
  induction texts as [|t texts IH]; [done |].
  cbn [map render_stream]. by rewrite IH.
Qed.

Lemma string_app_assoc s t u : (s +:+ t) +:+ u = s +:+ (t +:+ u).
Proof. induction s as [|c s IH]; [done |]. by rewrite !append_cons, IH. Qed.

Lemma concat_empty_snoc l x :
  String.concat "" (l ++ [x]) = String.concat "" l +:+ x.
Proof.
  induction l as [|y l IH]; [done |].
  destruct l as [|z l].
  - change (String.concat "" ([y] ++ [x])) with (y +:+ "" +:+ x).
    by rewrite append_nil.
  - change (String.concat "" ((y :: z :: l) ++ [x]))
      with (y +:+ "" +:+ String.concat "" ((z :: l) ++ [x])).
    change (String.concat "" (y :: z :: l))
      with (y +:+ "" +:+ String.concat "" (z :: l)).
    by rewrite IH, !append_nil, string_app_assoc.
Qed.

(** X21: a stream of token deltas is written token by token, unchanged
    and in order, and followed by the closing newline; the text on
    [stdout] is the concatenation of the tokens and a newline. *)
Theorem token_stream_is_reproduced texts :
  render (map TokenDelta texts) = (texts ++ [newline], Ok tt)
  ∧ String.concat "" (fst (render (map TokenDelta texts)))
    = String.concat "" texts +:+ newline.
Proof.
  assert (render (map TokenDelta texts) = (texts ++ [newline], Ok tt)) as Hr
    by (unfold render; by rewrite render_stream_tokens).
  split; [exact Hr |]. rewrite Hr. apply concat_empty_snoc.
Qed.

(* ================================================================== *)
(** * Where the cache key is injective *)
(* ================================================================== *)

Lemma str_replace_absent old new s :
  contains_char old s = false → str_replace old new s = s.
Proof.
  induction s as [|c s IH]; [done |]. cbn [contains_char str_replace].
  intros [Hc Hs]%orb_false_elim. by rewrite Hc, IH.
Qed.

Lemma dash_split a : ∀ b x y,
  contains_char "-" a = false → contains_char "-" b = false →
  a +:+ "-" +:+ x = b +:+ "-" +:+ y → a = b ∧ x = y.
Proof.
  induction a as [|c a IH]; intros [|d b] x y Ha Hb Heq.
  - rewrite !append_nil, !append_cons, !append_nil in Heq. by injection Heq.
  - rewrite append_nil, !append_cons, append_nil in Heq. injection Heq as <- _.
    cbn [contains_char] in Hb. by rewrite Ascii.eqb_refl in Hb.
  - rewrite append_nil, !append_cons, append_nil in Heq. injection Heq as -> _.
    cbn [contains_char] in Ha. by rewrite Ascii.eqb_refl in Ha.
  - rewrite !append_cons in Heq. injection Heq as -> Heq.
    cbn [contains_char] in Ha, Hb.
    apply orb_false_elim in Ha as [_ Ha]. apply orb_false_elim in Hb as [_ Hb].
    destruct (IH b x y Ha Hb Heq) as [-> ->]. done.
Qed.

Lemma concat_cons_cons sep x y l :
  String.concat sep (x :: y :: l) = x +:+ sep +:+ String.concat sep (y :: l).
Proof. reflexivity. Qed.

Lemma contains_dash_app_dash a x : contains_char "-" (a +:+ "-" +:+ x) = true.
Proof.
  rewrite contains_char_app. cbn [contains_char].
  rewrite append_cons. cbn [contains_char]. rewrite Ascii.eqb_refl.
  by rewrite orb_true_r.
Qed.

Lemma dash_join_inj l : ∀ l',
  Forall (λ s, contains_char "-" s = false) l →
  Forall (λ s, contains_char "-" s = false) l' →
  l ≠ [] → l' ≠ [] →
  String.concat "-" l = String.concat "-" l' → l = l'.
Proof.
  induction l as [|x l IH]; intros [|x' l'] Hl Hl' Hne Hne' Heq; try done.
  apply Forall_cons in Hl as [Hx Hl]. apply Forall_cons in Hl' as [Hx' Hl'].
  destruct l as [|y l], l' as [|y' l'].
  - simpl in Heq. by subst.
  - rewrite concat_cons_cons in Heq. simpl in Heq. subst x.
    by rewrite contains_dash_app_dash in Hx.
  - rewrite concat_cons_cons in Heq. simpl in Heq. subst x'.
    by rewrite contains_dash_app_dash in Hx'.
  - rewrite !concat_cons_cons in Heq.
    destruct (dash_split x x' _ _ Hx Hx' Heq) as [-> Htail].
    f_equal. by apply IH.
Qed.

(** X22: the cache key tells apart servers written in plain words:
    when commands and arguments hold neither [/] nor [-], and the
    argument list is not the single empty string, equal keys mean equal
    command and equal arguments.  The exception is needed: no arguments
    and one empty argument derive the same key. *)
Theorem cache_key_injective_on_plain_words sp1 sp2 :
  (plain_words sp1 = true → plain_words sp2 = true →
   args sp1 ≠ [""] → args sp2 ≠ [""] →
   get_cached_tools_key sp1 = get_cached_tools_key sp2 →
   command sp1 = command sp2 ∧ args sp1 = args sp2)
  ∧ get_cached_tools_key {| command := command sp1; args := []; env := env sp1 |}
    = get_cached_tools_key {| command := command sp1; args := [""]; env := env sp1 |}.
Proof.
  split; [| reflexivity].
  unfold plain_words. cbn [forallb].
  intros [Hc1 Ha1]%andb_prop [Hc2 Ha2]%andb_prop Hne1 Hne2 Hkey.
  apply andb_prop in Hc1 as [Hs1 Hd1]. apply andb_prop in Hc2 as [Hs2 Hd2].
  apply negb_true_iff in Hs1, Hd1, Hs2, Hd2.
  rewrite forallb_forall in Ha1, Ha2.
  assert (∀ sp, (∀ s, In s (args sp) →
                      negb (contains_char "/" s) && negb (contains_char "-" s) = true) →
                map (str_replace "/" "-") (args sp) = args sp
                ∧ Forall (λ s, contains_char "-" s = false) (args sp)) as Hargs.
  { intros sp Hall. induction (args sp) as [|s l IH]; [by split |].
    destruct (andb_prop _ _ (Hall s (or_introl eq_refl))) as [Hs Hd].
    apply negb_true_iff in Hs, Hd.
    destruct IH as [IH1 IH2]; [intros s' Hin; apply Hall; by right |].
    split; [cbn [map]; by rewrite str_replace_absent, IH1 |].
    by constructor. }
  destruct (Hargs sp1 Ha1) as [Hmap1 Hdash1].
  destruct (Hargs sp2 Ha2) as [Hmap2 Hdash2].
  rewrite !cache_key_replaced, Hmap1, Hmap2 in Hkey.
  rewrite !(str_replace_absent "/" "-" (command _)) in Hkey by done.
  destruct (dash_split _ _ _ _ Hd1 Hd2 Hkey) as [Hcmd Hjoin].
  split; [done |].
  destruct (args sp1) as [|x1 l1] eqn:E1, (args sp2) as [|x2 l2] eqn:E2.
  - done.
  - exfalso. destruct l2 as [|y2 l2].
    + simpl in Hjoin. by subst x2.
    + rewrite concat_cons_cons in Hjoin. simpl in Hjoin.
      apply (f_equal String.length) in Hjoin.
      rewrite !string_length_append in Hjoin. simpl in Hjoin. lia.
  - exfalso. destruct l1 as [|y1 l1].
    + simpl in Hjoin. by subst x1.
    + rewrite concat_cons_cons in Hjoin. simpl in Hjoin.
      apply (f_equal String.length) in Hjoin.
      rewrite !string_length_append in Hjoin. simpl in Hjoin. lia.
  - by apply dash_join_inj.
Qed.

Lemma cache_key_injective_on_plain_words_witness :
  command plain_server = command plain_server_with_env
  ∧ args plain_server = args plain_server_with_env.
Proof.
  apply (proj1 (cache_key_injective_on_plain_words plain_server plain_server_with_env));
    [reflexivity | reflexivity | discriminate | discriminate | reflexivity].
Defined.
